(** * SimpleSocket: the Modbus/TCP responder of [ModbusServer.cpp]

    A shallow embedding of the request dispatcher ([sendException],
    [processRequest]), of the exact read of [SimpleConnection::readExact]
    and of the per-connection session loop ([ModbusServer::Impl::clientThread]),
    followed by the properties of the wire protocol that the code has. *)

From Stdlib Require Import ZArith List Lia Bool.
From stdpp Require Import base list.
Import ListNotations.

Local Open Scope Z_scope.

(** ** Machine integers

    Bytes and 16-bit words are integers in [Z]; every conversion that the
    C++ code performs implicitly is written out. *)

Module Wire.

(** Conversion to [uint8_t]. *)
Definition u8 (z : Z) : Z := z mod 256.

(** Conversion to [uint16_t]. *)
Definition u16 (z : Z) : Z := z mod 65536.

(** The value of an [int] expression (32 bits, two's complement): the
    operands of [+], [*], [<<] and [|] are promoted to [int] before the
    operation. *)
Definition int32 (z : Z) : Z := (z + 2147483648) mod 4294967296 - 2147483648.

(** Conversion of an [int] to [size_t] (64 bits) in a comparison with
    [reg.size()]. *)
Definition to_size_t (z : Z) : Z := z mod 18446744073709551616.

(** [(hi << 8) | lo] as the code computes it, in [int]. *)
Definition shl8_or (hi lo : Z) : Z := int32 (Z.lor (int32 (Z.shiftl hi 8)) lo).

(** The big-endian word of two bytes, as arithmetic. *)
Definition be16 (hi lo : Z) : Z := hi * 256 + lo.

(** The two bytes of a word, high byte first. *)
Definition be_bytes (w : Z) : list Z := [w / 256; w mod 256].

Definition is_byte (b : Z) : Prop := 0 <= b < 256.
Definition is_word (w : Z) : Prop := 0 <= w < 65536.

End Wire.
Import Wire.

(** ** The world a session acts on *)

(** A connection: the chunks that the transport delivers to the successive
    calls of the virtual [read] (an empty chunk, or no chunk left, is a
    [read] that returns 0: the peer closed the stream), and the log of the
    buffers passed to [write]. *)
Record Connection : Type := mkConnection {
  incoming : list (list Z);
  written : list (list Z)
}.

(** The world of a session: its connection and the register store that
    all the sessions of a server share. *)
Record World : Type := mkWorld {
  conn : Connection;
  reg : list Z
}.

Inductive fault : Type :=
| VectorOutOfRange      (* [request[i]] with [i >= request.size()] *)
| RegisterOutOfRange.   (* a register index outside the store *)

Inductive Result (A : Type) : Type :=
| Ok (a : A) (w : World)
| Undefined (f : fault).
Arguments Ok {A} a w.
Arguments Undefined {A} f.

(** The monad of the embedded code: state passing over the world, with the
    executions that C++ leaves undefined made explicit. *)
Definition M (A : Type) : Type := World -> Result A.

Definition ret {A : Type} (a : A) : M A := fun w => Ok a w.

Definition bind {A B : Type} (m : M A) (k : A -> M B) : M B :=
  fun w => match m w with
           | Ok a w' => k a w'
           | Undefined f => Undefined f
           end.

Notation "x <- m ;; k" := (bind m (fun x => k))
  (at level 100, m at next level, right associativity).
Notation "m ;;; k" := (bind m (fun _ => k))
  (at level 100, right associativity).

(** [v[i]] on a [std::vector<uint8_t>]. *)
Definition at_ (v : list Z) (i : Z) : M Z :=
  fun w => if i <? 0 then Undefined VectorOutOfRange
           else match v !! Z.to_nat i with
                | Some b => Ok b w
                | None => Undefined VectorOutOfRange
                end.

(** Modelled from the spec: [HoldingRegister::size]; [HoldingRegister.hpp]
    is not among the sources. The register store is a sequence of 16-bit
    unsigned words whose size is fixed at construction. *)
Definition reg_size : M Z :=
  fun w => Ok (Z.of_nat (length (reg w))) w.

(** Modelled from the spec: [HoldingRegister::getUint16]. The callers
    check [index < size]; an access outside the store has no defined
    result. *)
Definition getUint16 (index : Z) : M Z :=
  fun w => if index <? 0 then Undefined RegisterOutOfRange
           else match reg w !! Z.to_nat index with
                | Some v => Ok v w
                | None => Undefined RegisterOutOfRange
                end.

(** Modelled from the spec: [HoldingRegister::setUint16], with the same
    proviso; the value is a [uint16_t]. *)
Definition setUint16 (index value : Z) : M unit :=
  fun w => if (0 <=? index) && (index <? Z.of_nat (length (reg w)))
           then Ok tt (mkWorld (conn w) (<[Z.to_nat index := u16 value]> (reg w)))
           else Undefined RegisterOutOfRange.

(** [conn.write(data)]: the buffer goes out on the connection; the result
    of [write] is not looked at by any caller. *)
Definition conn_write (data : list Z) : M unit :=
  fun w => Ok tt (mkWorld (mkConnection (incoming (conn w)) (written (conn w) ++ [data]))
                          (reg w)).

(** ** The request dispatcher *)

Definition headerSize : Z := 6.

(** [sendException]: the three bytes of an exception reply. *)
Definition sendException (deviceAddress functionCode exceptionCode : Z) : M unit :=
  let response := [u8 deviceAddress;
                   u8 (int32 (Z.lor functionCode 0x80));
                   u8 exceptionCode] in
  conn_write response.

(** The loop of function 0x03: [n] iterations are left, [i] is the value of
    the [uint16_t] counter; each register goes out high byte first. *)
Fixpoint read_registers (n : nat) (i startAddress : Z) (response : list Z)
  : M (list Z) :=
  match n with
  | O => ret response
  | S n' =>
      v <- getUint16 (int32 (startAddress + i)) ;;
      let regValue := u16 v in
      let response := response ++ [u8 (Z.shiftr regValue 8)] in
      let response := response ++ [u8 (Z.land regValue 0xFF)] in
      read_registers n' (u16 (i + 1)) startAddress response
  end.

(** The loop of function 0x10: register [i] is read from the request at
    [headerSize + 7 + i*2] and written at [startAddress + i]. *)
Fixpoint write_registers (n : nat) (i startAddress : Z) (request : list Z)
  : M unit :=
  match n with
  | O => ret tt
  | S n' =>
      hi <- at_ request (int32 (headerSize + 7 + int32 (i * 2))) ;;
      lo <- at_ request (int32 (headerSize + 8 + int32 (i * 2))) ;;
      let regValue := u16 (shl8_or hi lo) in
      setUint16 (int32 (startAddress + i)) regValue ;;;
      write_registers n' (u16 (i + 1)) startAddress request
  end.

Definition processRequest (request : list Z) : M unit :=
  functionCode <- at_ request (headerSize + 1) ;;
  a_hi <- at_ request (headerSize + 2) ;;
  a_lo <- at_ request (headerSize + 3) ;;
  let startAddress := u16 (shl8_or a_hi a_lo) in
  q_hi <- at_ request (headerSize + 4) ;;
  q_lo <- at_ request (headerSize + 5) ;;
  let quantity := u16 (shl8_or q_hi q_lo) in
  if functionCode =? 0x03 then
    (* Read Holding Registers *)
    size <- reg_size ;;
    if to_size_t (int32 (startAddress + quantity)) >? size then
      deviceAddress <- at_ request (headerSize + 0) ;;
      sendException deviceAddress functionCode 0x02
    else
      let response := take 4 request in
      let length := u16 (int32 (3 + int32 (quantity * 2))) in
      let response := response ++ [u8 (Z.shiftr length 8)] in
      let response := response ++ [u8 (Z.land length 0xFF)] in
      unit <- at_ request 6 ;;
      let response := response ++ [unit] in
      let response := response ++ [functionCode] in
      let response := response ++ [u8 (int32 (quantity * 2))] in
      response <- read_registers (Z.to_nat quantity) 0 startAddress response ;;
      conn_write response
  else if functionCode =? 0x06 then
    (* Write Single Register *)
    size <- reg_size ;;
    if to_size_t startAddress >=? size then
      deviceAddress <- at_ request (headerSize + 0) ;;
      sendException deviceAddress functionCode 0x02
    else
      v_hi <- at_ request (headerSize + 4) ;;
      v_lo <- at_ request (headerSize + 5) ;;
      let valueToWrite := u16 (shl8_or v_hi v_lo) in
      setUint16 startAddress valueToWrite ;;;
      let response := request in
      conn_write response
  else if functionCode =? 0x10 then
    (* Write Multiple Registers *)
    a_hi <- at_ request (headerSize + 2) ;;
    a_lo <- at_ request (headerSize + 3) ;;
    let startAddress := u16 (shl8_or a_hi a_lo) in
    q_hi <- at_ request (headerSize + 4) ;;
    q_lo <- at_ request (headerSize + 5) ;;
    let quantity := u16 (shl8_or q_hi q_lo) in
    byteCount <- at_ request (headerSize + 6) ;;
    size <- reg_size ;;
    if (to_size_t (int32 (startAddress + quantity)) >? size)
       || negb (byteCount =? int32 (quantity * 2)) then
      deviceAddress <- at_ request (headerSize + 0) ;;
      sendException deviceAddress functionCode 0x02
    else
      write_registers (Z.to_nat quantity) 0 startAddress request ;;;
      let response := take 6 request in
      unit <- at_ request (headerSize + 1) ;;
      let response := response ++ [unit] in
      let response := response ++ [functionCode] in
      let response := response ++ [u8 (Z.shiftr startAddress 8)] in
      let response := response ++ [u8 (Z.land startAddress 0xFF)] in
      let response := response ++ [u8 (Z.shiftr quantity 8)] in
      let response := response ++ [u8 (Z.land quantity 0xFF)] in
      conn_write response
  else
    deviceAddress <- at_ request 0 ;;
    sendException deviceAddress functionCode 0x01.

(** ** Exact reads *)

(** The virtual [read(buffer, size)] of the transport: it delivers at most
    [size] bytes of the next chunk and returns their number, or returns 0
    when the peer has closed the stream. *)
Definition conn_read (size : nat) : M (Z * list Z) :=
  fun w =>
    match incoming (conn w) with
    | [] => Ok (0, []) w
    | chunk :: rest =>
        let got := take size chunk in
        let left := drop size chunk in
        let incoming' := match left with [] => rest | _ => left :: rest end in
        Ok (Z.of_nat (length got), got)
           (mkWorld (mkConnection incoming' (written (conn w))) (reg w))
    end.

(** The bytes [data] stored into [buffer] from offset [off] on. *)
Definition store_at (buffer : list Z) (off : nat) (data : list Z) : list Z :=
  take off buffer ++ data ++ drop (off + length data) buffer.

Inductive ReadExact : Type :=
| Exact (ok : bool) (buffer : list Z)
| NoFuel.

(** The loop of [readExact(buffer, size)]. Every iteration that goes on
    has received at least one byte, so [size] iterations are enough
    ([readExact_terminates]). *)
Fixpoint readExact_loop (fuel : nat) (buffer : list Z)
    (totalBytesReceived size : nat) : M ReadExact :=
  if (totalBytesReceived <? size)%nat then
    match fuel with
    | O => ret NoFuel
    | S fuel' =>
        let remainingBytes := (size - totalBytesReceived)%nat in
        r <- conn_read remainingBytes ;;
        let bytesRead := fst r in
        if bytesRead <=? 0 then ret (Exact false buffer)
        else readExact_loop fuel'
               (store_at buffer totalBytesReceived (snd r))
               (totalBytesReceived + Z.to_nat bytesRead)%nat size
    end
  else ret (Exact (totalBytesReceived =? size)%nat buffer).

(** [readExact(Container& buffer)]. *)
Definition readExact (buffer : list Z) : M ReadExact :=
  readExact_loop (length buffer) buffer 0 (length buffer).

(** ** The session of one client *)

(** [request.resize(n)]: the first [n] elements are kept, new elements are
    zero. *)
Definition resize (v : list Z) (n : nat) : list Z :=
  take n v ++ repeat 0 (n - length v)%nat.

Inductive Session : Type :=
| Closed (dispatched : list (list Z))
| Stuck.

(** The loop of [clientThread]. [stops] lists what the successive tests of
    [stop_] observe (the flag is set by another thread; after the last
    observation the server has been stopped); [dispatched] records the
    frames handed to [processRequest]. The buffers [mbap] and [request]
    outlive the iterations, as in the source. *)
Fixpoint clientThread_loop (stops : list bool) (mbap request : list Z)
    (dispatched : list (list Z)) : M Session :=
  match stops with
  | [] => ret (Closed dispatched)
  | true :: _ => ret (Closed dispatched)
  | false :: stops' =>
      r <- readExact mbap ;;
      match r with
      | NoFuel => ret Stuck
      | Exact false _ => ret (Closed dispatched)
      | Exact true mbap =>
          l_hi <- at_ mbap 4 ;;
          l_lo <- at_ mbap 5 ;;
          let length := u16 (shl8_or l_hi l_lo) in
          let request := resize request (Z.to_nat length) in
          r <- readExact request ;;
          match r with
          | NoFuel => ret Stuck
          | Exact _ request =>
              let request := mbap ++ request in
              processRequest request ;;;
              clientThread_loop stops' mbap request (dispatched ++ [request])
          end
      end
  end.

Definition clientThread (stops : list bool) : M Session :=
  clientThread_loop stops (repeat 0 6%nat) [] [].

(** ** Reading the fields of a frame *)

(** Byte [i] of a frame (0 past its end). *)
Definition byte_at (frame : list Z) (i : nat) : Z := nth i frame 0.

Definition unitId (frame : list Z) : Z := byte_at frame 6.
Definition functionCode (frame : list Z) : Z := byte_at frame 7.
Definition startAddress (frame : list Z) : Z :=
  be16 (byte_at frame 8) (byte_at frame 9).
Definition quantity (frame : list Z) : Z :=
  be16 (byte_at frame 10) (byte_at frame 11).
Definition byteCount (frame : list Z) : Z := byte_at frame 12.

(** A frame as it comes off the wire: a sequence of bytes. *)
Definition is_frame (frame : list Z) : Prop := Forall is_byte frame.

(** A register store holds 16-bit words. *)
Definition is_store (store : list Z) : Prop := Forall is_word store.

Definition store_size (store : list Z) : Z := Z.of_nat (length store).

(** The world after [data] went out on the connection, the store being
    [store]. *)
Definition sent (data : list Z) (store : list Z) (w : World) : World :=
  mkWorld (mkConnection (incoming (conn w)) (written (conn w) ++ [data])) store.

(** A world with an idle connection. *)
Definition world_of (store : list Z) : World :=
  mkWorld (mkConnection [] []) store.
(** The value field of a 0x06 request (bytes 10 and 11). *)
Definition registerValue (frame : list Z) : Z :=
  be16 (byte_at frame 10) (byte_at frame 11).

(** The registers [start], ..., [start + n - 1] of a store. *)
Definition registers (store : list Z) (start n : Z) : list Z :=
  take (Z.to_nat n) (drop (Z.to_nat start) store).

(** The three bytes of an exception reply for [frame]: a leading byte, the
    function code with bit 0x80 set, the exception code. *)
Definition exception_frame (first : Z) (frame : list Z) (code : Z) : list Z :=
  [first; Z.lor (functionCode frame) 0x80; code].

(** When the validation of a request of a supported function fails. The
    frame is long enough to hold the fields that the validation looks at. *)
Definition validation_fails (frame store : list Z) : Prop :=
  (functionCode frame = 0x03 /\ (12 <= length frame)%nat /\
   startAddress frame + quantity frame > store_size store) \/
  (functionCode frame = 0x06 /\ (12 <= length frame)%nat /\
   startAddress frame >= store_size store) \/
  (functionCode frame = 0x10 /\ (13 <= length frame)%nat /\
   (startAddress frame + quantity frame > store_size store \/
    byteCount frame <> quantity frame * 2)).

(** The reply to a 0x03 request, as the code builds it: the length field is
    a [uint16_t] and the byte count a [uint8_t]. *)
Definition read_response (frame store : list Z) : list Z :=
  take 4 frame
  ++ be_bytes ((3 + quantity frame * 2) mod 65536)
  ++ [unitId frame; 0x03; (quantity frame * 2) mod 256]
  ++ flat_map be_bytes (registers store (startAddress frame) (quantity frame)).

(** The reply to a 0x03 request in the words of the specification: length
    [3 + quantity*2], byte count [quantity*2]. *)
Definition read_response_spec (frame store : list Z) : list Z :=
  take 4 frame
  ++ be_bytes (3 + quantity frame * 2)
  ++ [unitId frame; 0x03; quantity frame * 2]
  ++ flat_map be_bytes (registers store (startAddress frame) (quantity frame)).

(** The reply to a 0x10 request in the words of the specification: the
    transaction and protocol identifiers, a length field of 6, the unit
    identifier, 0x10, and the echo of address and quantity. *)
Definition write_multiple_response_spec (frame : list Z) : list Z :=
  take 4 frame
  ++ be_bytes 6
  ++ [unitId frame; 0x10]
  ++ be_bytes (startAddress frame) ++ be_bytes (quantity frame).

(** The reply to a 0x10 request, as the code builds it: the first six bytes
    of the request, then byte 7 of the request, 0x10 and the echo. *)
Definition write_multiple_response (frame : list Z) : list Z :=
  take 6 frame
  ++ [byte_at frame 7; 0x10]
  ++ be_bytes (startAddress frame) ++ be_bytes (quantity frame).

(** The values of a 0x10 request: [n] big-endian words from byte 13 on. *)
Fixpoint request_values (n : nat) (data : list Z) : list Z :=
  match n, data with
  | S n', hi :: lo :: data' => be16 hi lo :: request_values n' data'
  | _, _ => []
  end.

(** The store after the words [values] were written from index [start] on,
    in ascending order. *)
Fixpoint write_all (store : list Z) (start : nat) (values : list Z) : list Z :=
  match values with
  | [] => store
  | v :: values' => write_all (<[start := v]> store) (S start) values'
  end.

(** ** Sample frames and stores *)

(** A store of ten registers, all zero. *)
Definition zero_store : list Z := repeat 0 10%nat.

(** Write Single Register: register 2 := 0x1234, unit 0x11. *)
Definition write_single_frame : list Z :=
  [0; 1; 0; 0; 0; 6; 0x11; 0x06; 0; 2; 0x12; 0x34].

(** Read Holding Registers: one register from address 2, unit 0x11. *)
Definition read_one_frame : list Z :=
  [0; 2; 0; 0; 0; 6; 0x11; 0x03; 0; 2; 0; 1].

(** Read Holding Registers: five registers from address 8. *)
Definition read_past_end_frame : list Z :=
  [0; 3; 0; 0; 0; 6; 0x11; 0x03; 0; 8; 0; 5].

(** Read Holding Registers: 128 registers from address 0. *)
Definition read_128_frame : list Z :=
  [0; 4; 0; 0; 0; 6; 0x11; 0x03; 0; 0; 0; 128].

(** Write Multiple Registers: register 1 := 0x1234, unit 0x11. *)
Definition write_multiple_frame : list Z :=
  [0; 1; 0; 0; 0; 9; 0x11; 0x10; 0; 1; 0; 1; 2; 0x12; 0x34].

(** Read Coils (0x01), a function the server does not have; transaction
    0xABCD, unit 0x11. *)
Definition read_coils_frame : list Z :=
  [0xAB; 0xCD; 0; 0; 0; 6; 0x11; 0x01; 0; 0; 0; 1].


(** A peer that sends the six bytes of a prefix announcing six more bytes,
    then four bytes of a Write Single Register request for register 1, and
    closes the stream. The store holds three registers of value 7. *)
Definition truncated_session : World :=
  mkWorld (mkConnection [[0; 1; 0; 0; 0; 6]; [0x11; 0x06; 0; 1]] []) [7; 7; 7].

(** A computation that, when it returns, leaves the store at its size. *)
Definition keeps_size {A : Type} (m : M A) : Prop :=
  forall (w w' : World) (a : A), m w = Ok a w' -> length (reg w') = length (reg w).

(** A computation that, when it returns, has passed [n] buffers to [write]
    and has read nothing from the connection. *)
Definition emits {A : Type} (n : nat) (m : M A) : Prop :=
  forall (w w' : World) (a : A),
    m w = Ok a w' ->
    incoming (conn w') = incoming (conn w) /\
    exists out, length out = n /\ written (conn w') = written (conn w) ++ out.

(** A computation that, when it returns, leaves 16-bit words in a store of
    16-bit words. *)
Definition keeps_words {A : Type} (m : M A) : Prop :=
  forall (w w' : World) (a : A), m w = Ok a w' -> is_store (reg w) -> is_store (reg w').

(** A frame that holds every byte the dispatcher reads from it: the five
    bytes after the unit identifier and, for function 0x10, the byte count
    and, when the byte count is twice the quantity, the values. *)
Definition well_sized (frame : list Z) : Prop :=
  (12 <= length frame)%nat /\
  (functionCode frame = 0x10 ->
   (13 <= length frame)%nat /\
   (byteCount frame = quantity frame * 2 ->
    13 + 2 * quantity frame <= Z.of_nat (length frame))).

(** The bytes that the peer sends before it closes the stream. *)
Definition pending (w : World) : list Z := concat (incoming (conn w)).

(** The transport never delivers an empty chunk before the stream ends. *)
Definition live (chunks : list (list Z)) : Prop := Forall (fun c => c <> []) chunks.

(** The world [w] once the transport is left with [chunks]. *)
Definition with_incoming (chunks : list (list Z)) (w : World) : World :=
  mkWorld (mkConnection chunks (written (conn w))) (reg w).

(** Read Exception Status (0x07): a request without parameters, of eight
    bytes. *)
Definition read_exception_status_frame : list Z := [0; 1; 0; 0; 0; 2; 0x11; 0x07].

(** The dispatch of the frames of a list, in order. *)
Fixpoint dispatch_all (frames : list (list Z)) : M unit :=
  match frames with
  | [] => ret tt
  | frame :: frames' => processRequest frame ;;; dispatch_all frames'
  end.

(** A frame whose length field counts the bytes that follow it. *)
Definition framed (frame : list Z) : Prop :=
  (6 <= length frame)%nat /\
  be16 (byte_at frame 4) (byte_at frame 5) = Z.of_nat (length frame) - 6.

(** The result [r] with its world changed by [g]. *)
Definition map_world {A : Type} (g : World -> World) (r : Result A) : Result A :=
  match r with
  | Ok a w => Ok a (g w)
  | Undefined f => Undefined f
  end.

(** A computation whose course does not depend on the chunks that wait on
    the connection, and which leaves them where they are. *)
Definition ignores_incoming {A : Type} (m : M A) : Prop :=
  forall (chunks : list (list Z)) (w : World),
    m (with_incoming chunks w) = map_world (with_incoming chunks) (m w).

(** A peer that sends a Write Single Register request and a Read Holding
    Registers request, cut into three chunks that do not follow the
    frames, and closes the stream. *)
Definition two_request_session : World :=
  mkWorld (mkConnection [[0; 1; 0];
                         [0; 0; 6; 0x11; 0x06; 0; 2; 0x12; 0x34; 0; 2];
                         [0; 0; 0; 6; 0x11; 0x03; 0; 2; 0; 1]] [])
          zero_store.

(** Read Holding Registers: one register from address 1, unit 0x11. *)
Definition read_register_1_frame : list Z :=
  [0; 2; 0; 0; 0; 6; 0x11; 0x03; 0; 1; 0; 1].

(** Write Single Register: register 5 := 0x00FF, unit 0x11. *)
Definition write_register_5_frame : list Z :=
  [0; 7; 0; 0; 0; 6; 0x11; 0x06; 0; 5; 0x00; 0xFF].

(** ** Arithmetic of the conversions *)

Section Conversions.

Lemma u8_byte (b : Z) : is_byte b -> u8 b = b.
Proof. unfold is_byte, u8. intros H. apply Z.mod_small. lia. Qed.

Lemma u16_word (x : Z) : is_word x -> u16 x = x.
Proof. unfold is_word, u16. intros H. apply Z.mod_small. lia. Qed.

Lemma int32_small (z : Z) : -2147483648 <= z < 2147483648 -> int32 z = z.
Proof. unfold int32. intros H. rewrite Z.mod_small; lia. Qed.

Lemma to_size_t_small (z : Z) : 0 <= z < 18446744073709551616 -> to_size_t z = z.
Proof. unfold to_size_t. intros H. apply Z.mod_small. lia. Qed.

Lemma be16_word (hi lo : Z) : is_byte hi -> is_byte lo -> is_word (be16 hi lo).
Proof. unfold is_byte, is_word, be16. lia. Qed.

Lemma lor_shiftl8 (hi lo : Z) :
  is_byte hi -> is_byte lo -> Z.lor (Z.shiftl hi 8) lo = be16 hi lo.
Proof.
  unfold is_byte, be16. intros Hhi Hlo.
  rewrite Z.shiftl_mul_pow2 by lia.
  change (2 ^ 8) with 256.
  rewrite <- Z.lxor_lor, <- Z.add_nocarry_lxor; try reflexivity.
  all: apply Z.bits_inj'; intros n Hn; rewrite Z.land_spec, Z.bits_0.
  all: destruct (Z.lt_ge_cases n 8) as [Hlt | Hge].
  all: try (replace (hi * 256) with (hi * 2 ^ 8) by reflexivity;
            rewrite Z.mul_pow2_bits_low by lia; reflexivity).
  all: rewrite (Z.bits_above_log2 lo n), andb_false_r; try reflexivity; try lia.
  all: destruct (Z.eq_dec lo 0) as [-> | Hne]; [simpl; lia |].
  all: apply Z.lt_le_trans with 8; [| lia].
  all: apply Z.log2_lt_pow2; lia.
Qed.

Lemma shl8_or_be16 (hi lo : Z) :
  is_byte hi -> is_byte lo -> u16 (shl8_or hi lo) = be16 hi lo.
Proof.
  intros Hhi Hlo. unfold shl8_or.
  pose proof (be16_word hi lo Hhi Hlo) as Hw.
  assert (Hs : int32 (Z.shiftl hi 8) = Z.shiftl hi 8).
  { apply int32_small. rewrite Z.shiftl_mul_pow2 by lia.
    unfold is_byte in Hhi. change (2 ^ 8) with 256. lia. }
  rewrite Hs, lor_shiftl8 by assumption.
  rewrite int32_small by (unfold is_word in Hw; lia).
  apply u16_word, Hw.
Qed.

Lemma word_high_byte (x : Z) : is_word x -> u8 (Z.shiftr x 8) = x / 256.
Proof.
  unfold is_word. intros H. rewrite Z.shiftr_div_pow2 by lia.
  change (2 ^ 8) with 256. apply u8_byte. unfold is_byte.
  split; [apply Z.div_pos; lia | apply Z.div_lt_upper_bound; lia].
Qed.

Lemma word_low_byte (x : Z) : is_word x -> u8 (Z.land x 0xFF) = x mod 256.
Proof.
  unfold is_word. intros H. change 0xFF with (Z.ones 8).
  rewrite Z.land_ones by lia. change (2 ^ 8) with 256.
  apply u8_byte. unfold is_byte. apply Z.mod_pos_bound. lia.
Qed.

Lemma be16_high (hi lo : Z) : is_byte hi -> is_byte lo -> be16 hi lo / 256 = hi.
Proof. unfold is_byte, be16. intros. rewrite Z.div_add_l by lia. rewrite Z.div_small; lia. Qed.

Lemma be16_low (hi lo : Z) : is_byte hi -> is_byte lo -> be16 hi lo mod 256 = lo.
Proof.
  unfold is_byte, be16. intros. rewrite Z.add_comm, Z.mod_add by lia.
  apply Z.mod_small. lia.
Qed.

(** Splitting a word into its bytes undoes [be16]. *)
Lemma be_bytes_be16 (hi lo : Z) :
  is_byte hi -> is_byte lo -> be_bytes (be16 hi lo) = [hi; lo].
Proof.
  intros Hhi Hlo. unfold be_bytes.
  rewrite be16_high, be16_low by assumption. reflexivity.
Qed.

Lemma exception_function_byte (fc : Z) :
  is_byte fc -> u8 (int32 (Z.lor fc 0x80)) = Z.lor fc 0x80.
Proof.
  unfold is_byte. intros H.
  assert (Hb : 0 <= Z.lor fc 0x80 < 256).
  { split; [apply Z.lor_nonneg; lia |].
    assert (Hpos : 0 < Z.lor fc 0x80).
    { destruct (Z.eq_dec (Z.lor fc 0x80) 0) as [E | E].
      - apply Z.lor_eq_0_iff in E. lia.
      - pose proof (proj2 (Z.lor_nonneg fc 0x80)). lia. }
    change 256 with (2 ^ 8). apply Z.log2_lt_pow2; [exact Hpos |].
    rewrite Z.log2_lor by lia.
    destruct (Z.eq_dec fc 0) as [-> | Hne]; [reflexivity |].
    assert (Z.log2 fc < 8) by (apply Z.log2_lt_pow2; lia).
    change (Z.log2 0x80) with 7. lia. }
  rewrite int32_small by lia. apply u8_byte. exact Hb.
Qed.

(** The sum of two 16-bit fields, computed in [int] and compared as a
    [size_t], is their exact sum. *)
Lemma range_sum_exact (a q : Z) :
  is_word a -> is_word q -> to_size_t (int32 (a + q)) = a + q.
Proof.
  unfold is_word. intros Ha Hq.
  rewrite int32_small by lia. apply to_size_t_small. lia.
Qed.

(** Twice a 16-bit quantity, computed in [int], is exact. *)
Lemma quantity_doubled_exact (q : Z) : is_word q -> int32 (q * 2) = q * 2.
Proof. unfold is_word. intros Hq. apply int32_small. lia. Qed.

End Conversions.

(** ** Stepping through the monad *)

Section Steps.
Context {B : Type}.

Lemma bind_at (v : list Z) (i b : Z) (k : Z -> M B) (w : World) :
  0 <= i -> v !! Z.to_nat i = Some b -> bind (at_ v i) k w = k b w.
Proof.
  intros Hi Hb. unfold bind, at_.
  destruct (Z.ltb_spec i 0) as [Hneg | _]; [lia |]. rewrite Hb. reflexivity.
Qed.

Lemma bind_reg_size (k : Z -> M B) (w : World) :
  bind reg_size k w = k (store_size (reg w)) w.
Proof. reflexivity. Qed.

Lemma bind_getUint16 (index v : Z) (k : Z -> M B) (w : World) :
  0 <= index -> reg w !! Z.to_nat index = Some v ->
  bind (getUint16 index) k w = k v w.
Proof.
  intros Hi Hv. unfold bind, getUint16.
  destruct (Z.ltb_spec index 0) as [Hneg | _]; [lia |]. rewrite Hv. reflexivity.
Qed.

Lemma bind_setUint16 (index value : Z) (k : unit -> M B) (w : World) :
  0 <= index < store_size (reg w) ->
  bind (setUint16 index value) k w
  = k tt (mkWorld (conn w) (<[Z.to_nat index := u16 value]> (reg w))).
Proof.
  unfold store_size. intros H. unfold bind, setUint16.
  destruct (Z.leb_spec 0 index); [| lia].
  destruct (Z.ltb_spec index (Z.of_nat (length (reg w)))); [| lia].
  reflexivity.
Qed.

Lemma bind_sendException (deviceAddress fc code : Z) (w : World) :
  is_byte deviceAddress -> is_byte fc -> is_byte code ->
  sendException deviceAddress fc code w
  = Ok tt (sent [deviceAddress; Z.lor fc 0x80; code] (reg w) w).
Proof.
  intros Hd Hfc Hc. unfold sendException, conn_write, sent.
  rewrite (u8_byte deviceAddress), (u8_byte code) by assumption.
  rewrite exception_function_byte by assumption. reflexivity.
Qed.

End Steps.

(** One read of a byte of the request at a constant index. *)
Ltac step_at :=
  erewrite bind_at; [cbv beta | unfold headerSize; lia | reflexivity].

(** The bytes of a frame given by its first elements are bytes. *)
Ltac frame_bytes H :=
  repeat match type of H with
         | is_frame (_ :: _) => apply Forall_cons in H; destruct H as [? H]
         | Forall _ (_ :: _) => apply Forall_cons in H; destruct H as [? H]
         end.

(** ** The dispatcher, branch by branch *)

Section Dispatcher.

Lemma frame_header (request : list Z) :
  (12 <= length request)%nat ->
  exists b0 b1 b2 b3 b4 b5 b6 b7 b8 b9 b10 b11 rest,
    request = b0 :: b1 :: b2 :: b3 :: b4 :: b5 :: b6 :: b7
              :: b8 :: b9 :: b10 :: b11 :: rest.
Proof.
  intros H.
  do 12 (destruct request as [| ? request]; [simpl in H; lia |]).
  repeat eexists.
Qed.

(** The dispatcher reads bytes 7 to 11 of the request before it looks at
    the function code: on a frame of fewer than 12 bytes this is an access
    past the end of the vector, whatever the function code. *)
Lemma short_frame_undefined (request : list Z) (w : World) :
  (length request < 12)%nat ->
  processRequest request w = Undefined VectorOutOfRange.
Proof.
  intros H.
  do 12 (destruct request as [| ? request]; [reflexivity |]).
  simpl in H. lia.
Qed.

Lemma registers_lookup (store : list Z) (start n i : Z) :
  0 <= start -> 0 <= i < n ->
  registers store start n !! Z.to_nat i = store !! Z.to_nat (start + i).
Proof.
  intros Hs Hi. unfold registers.
  rewrite lookup_take_lt by lia. rewrite lookup_drop. f_equal. lia.
Qed.

Lemma registers_length (store : list Z) (start n : Z) :
  0 <= start -> 0 <= n -> start + n <= store_size store ->
  Z.of_nat (length (registers store start n)) = n.
Proof.
  unfold registers, store_size. intros Hs Hn Hin.
  rewrite length_take, length_drop. lia.
Qed.

Lemma field_word (frame : list Z) (i j : nat) :
  is_frame frame -> (S j <= length frame)%nat -> (S i <= length frame)%nat ->
  is_word (be16 (byte_at frame i) (byte_at frame j)).
Proof.
  intros Hf Hj Hi. unfold byte_at.
  apply be16_word; apply (proj1 (Forall_forall _ _) Hf), list_elem_of_In, nth_In; lia.
Qed.

(** The loop of function 0x03 appends the registers it walks over, each
    as two bytes, and leaves the world as it is. *)
Lemma read_registers_ok (n : nat) :
  forall (i start : Z) (response : list Z) (w : World),
    is_word start -> 0 <= i -> i + Z.of_nat n <= 65535 ->
    start + i + Z.of_nat n <= store_size (reg w) ->
    Forall is_word (take n (drop (Z.to_nat (start + i)) (reg w))) ->
    read_registers n i start response w
    = Ok (response ++ flat_map be_bytes (take n (drop (Z.to_nat (start + i)) (reg w)))) w.
Proof.
  induction n as [| n IH]; intros i start response w Hs Hi Hn Hsz Hw.
  - simpl. rewrite app_nil_r. reflexivity.
  - unfold is_word, store_size in *.
    destruct (lookup_lt_is_Some_2 (reg w) (Z.to_nat (start + i))) as [v Hv]; [lia |].
    rewrite (drop_S _ _ _ Hv) in Hw |- *.
    rewrite firstn_cons in Hw |- *.
    apply Forall_cons in Hw. destruct Hw as [Hv16 Hw].
    cbn [read_registers].
    rewrite int32_small by lia.
    rewrite (bind_getUint16 _ v) by (lia || assumption).
    cbv zeta.
    rewrite (u16_word v), word_high_byte, word_low_byte by assumption.
    rewrite (u16_word (i + 1)) by (unfold is_word; lia).
    replace (S (Z.to_nat (start + i))) with (Z.to_nat (start + (i + 1))) in Hw |- * by lia.
    rewrite IH; try (unfold is_word, store_size; lia); try assumption.
    cbn [flat_map be_bytes]. rewrite <- !app_assoc. reflexivity.
Qed.

Lemma dispatch_read_holding (request : list Z) (w : World) :
  is_frame request ->
  (12 <= length request)%nat ->
  functionCode request = 0x03 ->
  startAddress request + quantity request <= store_size (reg w) ->
  Forall is_word (registers (reg w) (startAddress request) (quantity request)) ->
  processRequest request w
  = Ok tt (sent (read_response request (reg w)) (reg w) w).
Proof.
  intros Hf Hlen Hfc Hin Hw.
  destruct (frame_header request Hlen)
    as (b0 & b1 & b2 & b3 & b4 & b5 & b6 & b7 & b8 & b9 & b10 & b11 & rest & ->).
  unfold read_response, registers, unitId, functionCode, startAddress, quantity,
    byte_at in *.
  cbn [nth] in Hfc, Hin, Hw |- *. subst b7. frame_bytes Hf.
  pose proof (be16_word b8 b9 ltac:(assumption) ltac:(assumption)) as Hs.
  pose proof (be16_word b10 b11 ltac:(assumption) ltac:(assumption)) as Hq.
  unfold processRequest. do 5 step_at.
  rewrite !shl8_or_be16 by assumption.
  change (3 =? 3) with true. cbv iota.
  rewrite bind_reg_size, range_sum_exact by assumption.
  destruct (Z.gtb_spec (be16 b8 b9 + be16 b10 b11) (store_size (reg w)))
    as [Hgt | _]; [lia |].
  cbv zeta. step_at.
  unfold bind at 1.
  unfold is_word in Hs, Hq.
  rewrite read_registers_ok;
    rewrite ?Z.add_0_r, ?Z2Nat.id by lia;
    try assumption; try (unfold is_word; lia).
  rewrite quantity_doubled_exact by exact Hq.
  rewrite int32_small by lia.
  assert (HL : is_word (u16 (3 + be16 b10 b11 * 2))).
  { unfold is_word, u16. apply Z.mod_pos_bound. lia. }
  rewrite word_high_byte, word_low_byte by exact HL.
  unfold conn_write, sent, u16, u8, be_bytes.
  rewrite <- !app_assoc. reflexivity.
Qed.

Lemma dispatch_write_single (request : list Z) (w : World) :
  is_frame request ->
  (12 <= length request)%nat ->
  functionCode request = 0x06 ->
  startAddress request < store_size (reg w) ->
  processRequest request w
  = Ok tt (sent request
             (<[Z.to_nat (startAddress request) := registerValue request]> (reg w)) w).
Proof.
  intros Hf Hlen Hfc Hin.
  destruct (frame_header request Hlen)
    as (b0 & b1 & b2 & b3 & b4 & b5 & b6 & b7 & b8 & b9 & b10 & b11 & rest & ->).
  unfold functionCode, startAddress, registerValue, byte_at in *.
  cbn [nth] in Hfc, Hin |- *. subst b7. frame_bytes Hf.
  pose proof (be16_word b8 b9 ltac:(assumption) ltac:(assumption)) as Hs.
  unfold processRequest. do 5 step_at.
  rewrite !shl8_or_be16 by assumption.
  change (6 =? 3) with false. change (6 =? 6) with true. cbv iota.
  rewrite bind_reg_size.
  unfold is_word in Hs.
  rewrite to_size_t_small by lia.
  destruct (Z.geb_spec (be16 b8 b9) (store_size (reg w))) as [Hge | _]; [lia |].
  do 2 step_at. rewrite shl8_or_be16 by assumption.
  rewrite bind_setUint16 by lia.
  rewrite u16_word by (apply be16_word; assumption).
  reflexivity.
Qed.

Lemma dispatch_illegal_function (request : list Z) (w : World) :
  is_frame request ->
  (12 <= length request)%nat ->
  functionCode request <> 0x03 ->
  functionCode request <> 0x06 ->
  functionCode request <> 0x10 ->
  processRequest request w
  = Ok tt (sent (exception_frame (byte_at request 0) request 0x01) (reg w) w).
Proof.
  intros Hf Hlen H3 H6 H16.
  destruct (frame_header request Hlen)
    as (b0 & b1 & b2 & b3 & b4 & b5 & b6 & b7 & b8 & b9 & b10 & b11 & rest & ->).
  unfold exception_frame, functionCode, byte_at in *.
  cbn [nth] in H3, H6, H16 |- *. frame_bytes Hf.
  unfold processRequest. do 5 step_at.
  destruct (Z.eqb_spec b7 3) as [E | _]; [contradiction |].
  destruct (Z.eqb_spec b7 6) as [E | _]; [contradiction |].
  destruct (Z.eqb_spec b7 16) as [E | _]; [contradiction |].
  step_at. apply bind_sendException; try assumption. unfold is_byte. lia.
Qed.

Lemma dispatch_rejected (request : list Z) (w : World) :
  is_frame request ->
  validation_fails request (reg w) ->
  processRequest request w
  = Ok tt (sent (exception_frame (unitId request) request 0x02) (reg w) w).
Proof.
  intros Hf Hfail.
  assert (Hlen : (12 <= length request)%nat).
  { destruct Hfail as [(_ & H & _) | [(_ & H & _) | (_ & H & _)]]; lia. }
  destruct (frame_header request Hlen)
    as (b0 & b1 & b2 & b3 & b4 & b5 & b6 & b7 & b8 & b9 & b10 & b11 & rest & ->).
  unfold validation_fails, exception_frame, unitId, functionCode, startAddress,
    quantity, byteCount, byte_at in *.
  cbn [nth] in Hfail |- *. frame_bytes Hf.
  pose proof (be16_word b8 b9 ltac:(assumption) ltac:(assumption)) as Hs.
  pose proof (be16_word b10 b11 ltac:(assumption) ltac:(assumption)) as Hq.
  assert (Hcode : is_byte 2) by (unfold is_byte; lia).
  unfold processRequest. do 5 step_at.
  rewrite !shl8_or_be16 by assumption.
  destruct Hfail as [(-> & _ & Hout) | [(-> & _ & Hout) | (-> & Hlen13 & Hout)]].
  - change (3 =? 3) with true. cbv iota.
    rewrite bind_reg_size, range_sum_exact by assumption.
    destruct (Z.gtb_spec (be16 b8 b9 + be16 b10 b11) (store_size (reg w)))
      as [_ | Hle]; [| lia].
    step_at. apply bind_sendException; assumption.
  - change (6 =? 3) with false. change (6 =? 6) with true. cbv iota.
    rewrite bind_reg_size.
    unfold is_word in Hs. rewrite to_size_t_small by lia.
    destruct (Z.geb_spec (be16 b8 b9) (store_size (reg w))) as [_ | Hlt]; [| lia].
    step_at. apply bind_sendException; assumption.
  - change (16 =? 3) with false. change (16 =? 6) with false.
    change (16 =? 16) with true. cbv iota.
    destruct rest as [| b12 rest]; [simpl in Hlen13; lia |].
    apply Forall_cons in Hf. destruct Hf as [Hb12 Hf].
    cbn [nth] in Hout.
    do 5 step_at. rewrite !shl8_or_be16 by assumption.
    rewrite bind_reg_size, range_sum_exact, quantity_doubled_exact by assumption.
    assert (Hcond : (be16 b8 b9 + be16 b10 b11 >? store_size (reg w))
                    || negb (b12 =? be16 b10 b11 * 2) = true).
    { destruct Hout as [Hout | Hout].
      - destruct (Z.gtb_spec (be16 b8 b9 + be16 b10 b11) (store_size (reg w)));
          [reflexivity | lia].
      - destruct (Z.eqb_spec b12 (be16 b10 b11 * 2)); [contradiction |].
        apply orb_true_r. }
    rewrite Hcond. step_at. apply bind_sendException; assumption.
Qed.

(** The loop of function 0x10 writes the words of the request in
    ascending order and touches nothing but the store. *)
Lemma write_registers_ok (n : nat) :
  forall (i start : Z) (request : list Z) (w : World),
    is_frame request -> is_word start -> 0 <= i -> i + Z.of_nat n <= 65535 ->
    start + i + Z.of_nat n <= store_size (reg w) ->
    13 + 2 * (i + Z.of_nat n) <= Z.of_nat (length request) ->
    write_registers n i start request w
    = Ok tt (mkWorld (conn w)
               (write_all (reg w) (Z.to_nat (start + i))
                  (request_values n (drop (Z.to_nat (13 + 2 * i)) request)))).
Proof.
  induction n as [| n IH]; intros i start request w Hf Hs Hi Hn Hsz Hlen.
  - destruct w as [c r]. reflexivity.
  - unfold is_word, store_size in *.
    destruct (lookup_lt_is_Some_2 request (Z.to_nat (13 + 2 * i))) as [hi Hhi]; [lia |].
    destruct (lookup_lt_is_Some_2 request (S (Z.to_nat (13 + 2 * i)))) as [lo Hlo]; [lia |].
    assert (Bhi : is_byte hi) by exact (proj1 (Forall_lookup _ _) Hf _ _ Hhi).
    assert (Blo : is_byte lo) by exact (proj1 (Forall_lookup _ _) Hf _ _ Hlo).
    rewrite (drop_S _ _ _ Hhi), (drop_S _ _ _ Hlo).
    cbn [write_registers request_values write_all]. unfold headerSize.
    rewrite (int32_small (i * 2)) by lia.
    rewrite (int32_small (6 + 7 + i * 2)), (int32_small (6 + 8 + i * 2)) by lia.
    rewrite (bind_at _ _ hi);
      [| lia | replace (Z.to_nat (6 + 7 + i * 2)) with (Z.to_nat (13 + 2 * i)) by lia;
               exact Hhi].
    rewrite (bind_at _ _ lo);
      [| lia | replace (Z.to_nat (6 + 8 + i * 2)) with (S (Z.to_nat (13 + 2 * i))) by lia;
               exact Hlo].
    cbv zeta. rewrite shl8_or_be16 by assumption.
    rewrite int32_small by lia.
    rewrite bind_setUint16 by (unfold store_size; lia).
    rewrite (u16_word (be16 hi lo)) by (apply be16_word; assumption).
    rewrite (u16_word (i + 1)) by (unfold is_word; lia).
    rewrite IH; try assumption; try (unfold is_word; lia);
      cbn [reg conn]; rewrite ?length_insert; try lia.
    replace (Z.to_nat (start + (i + 1))) with (S (Z.to_nat (start + i))) by lia.
    replace (Z.to_nat (13 + 2 * (i + 1))) with (S (S (Z.to_nat (13 + 2 * i)))) by lia.
    reflexivity.
Qed.

Lemma write_all_length (values : list Z) :
  forall (store : list Z) (start : nat),
    length (write_all store start values) = length store.
Proof.
  induction values as [| v values IH]; intros store start; [reflexivity |].
  cbn [write_all]. rewrite IH. apply length_insert.
Qed.

Lemma dispatch_write_multiple (request : list Z) (w : World) :
  is_frame request ->
  functionCode request = 0x10 ->
  13 + 2 * quantity request <= Z.of_nat (length request) ->
  startAddress request + quantity request <= store_size (reg w) ->
  byteCount request = quantity request * 2 ->
  processRequest request w
  = Ok tt (sent (write_multiple_response request)
             (write_all (reg w) (Z.to_nat (startAddress request))
                (request_values (Z.to_nat (quantity request)) (drop 13 request))) w).
Proof.
  intros Hf Hfc Hlen Hin Hbc.
  assert (Hq0 : 0 <= quantity request).
  { unfold quantity, byte_at, be16.
    assert (Hb : forall i, 0 <= nth i request 0).
    { intros i. destruct (nth_in_or_default i request 0) as [Hi | ->]; [| lia].
      apply list_elem_of_In in Hi.
      exact (proj1 (proj1 (Forall_forall _ _) Hf _ Hi)). }
    pose proof (Hb 10%nat). pose proof (Hb 11%nat). lia. }
  assert (Hlen13 : (13 <= length request)%nat) by lia.
  do 13 (destruct request as [| ? request]; [simpl in Hlen13; lia |]).
  unfold write_multiple_response, functionCode, startAddress, quantity, byteCount,
    byte_at in *.
  cbn [nth] in Hfc, Hin, Hbc, Hlen, Hq0 |- *. subst.
  pose proof Hf as Hf'. frame_bytes Hf.
  match goal with
  | |- processRequest (?b0 :: ?b1 :: ?b2 :: ?b3 :: ?b4 :: ?b5 :: ?b6 :: 16
                       :: ?b8 :: ?b9 :: ?b10 :: ?b11 :: _ :: _) _ = _ =>
      pose proof (be16_word b8 b9 ltac:(assumption) ltac:(assumption)) as Hs;
      pose proof (be16_word b10 b11 ltac:(assumption) ltac:(assumption)) as Hq
  end.
  unfold processRequest. do 5 step_at.
  change (16 =? 3) with false. change (16 =? 6) with false.
  change (16 =? 16) with true. cbv iota.
  do 5 step_at. rewrite !shl8_or_be16 by assumption.
  rewrite bind_reg_size, range_sum_exact, quantity_doubled_exact by assumption.
  match goal with
  | |- context [(?a >? ?b) || negb (?c =? ?c)] =>
      destruct (Z.gtb_spec a b) as [Hgt | _]; [lia |]
  end.
  rewrite Z.eqb_refl. cbn [negb orb].
  unfold bind at 1.
  unfold is_word in Hs, Hq.
  rewrite write_registers_ok; try assumption; try (unfold is_word; lia).
  cbn [conn reg]. step_at. cbv zeta.
  rewrite !word_high_byte, !word_low_byte by (unfold is_word; lia).
  rewrite Z.add_0_r. unfold conn_write, sent, be_bytes. cbn [conn reg].
  rewrite <- !app_assoc. reflexivity.
Qed.

End Dispatcher.

(** ** The size of the store is fixed *)

Section StoreSize.

Lemma keeps_size_ret {A : Type} (a : A) : keeps_size (ret a).
Proof. intros w w' a' H. inversion H. reflexivity. Qed.

Lemma keeps_size_bind {A B : Type} (m : M A) (k : A -> M B) :
  keeps_size m -> (forall a, keeps_size (k a)) -> keeps_size (bind m k).
Proof.
  intros Hm Hk w w' b H. unfold bind in H.
  destruct (m w) as [a w1 |] eqn:E; [| discriminate].
  rewrite (Hk a _ _ _ H). exact (Hm _ _ _ E).
Qed.

Lemma keeps_size_at (v : list Z) (i : Z) : keeps_size (at_ v i).
Proof.
  intros w w' b H. unfold at_ in H.
  destruct (i <? 0); [discriminate |].
  destruct (v !! Z.to_nat i); inversion H. reflexivity.
Qed.

Lemma keeps_size_reg_size : keeps_size reg_size.
Proof. intros w w' b H. inversion H. reflexivity. Qed.

Lemma keeps_size_getUint16 (index : Z) : keeps_size (getUint16 index).
Proof.
  intros w w' b H. unfold getUint16 in H.
  destruct (index <? 0); [discriminate |].
  destruct (reg w !! Z.to_nat index); inversion H. reflexivity.
Qed.

Lemma keeps_size_setUint16 (index value : Z) : keeps_size (setUint16 index value).
Proof.
  intros w w' b H. unfold setUint16 in H.
  destruct ((0 <=? index) && (index <? Z.of_nat (length (reg w)))); inversion H.
  apply length_insert.
Qed.

Lemma keeps_size_conn_write (data : list Z) : keeps_size (conn_write data).
Proof. intros w w' b H. inversion H. reflexivity. Qed.

Lemma keeps_size_sendException (d fc code : Z) : keeps_size (sendException d fc code).
Proof. apply keeps_size_conn_write. Qed.

Lemma keeps_size_read_registers (n : nat) :
  forall (i start : Z) (response : list Z),
    keeps_size (read_registers n i start response).
Proof.
  induction n as [| n IH]; intros i start response; cbn [read_registers].
  - apply keeps_size_ret.
  - apply keeps_size_bind; [apply keeps_size_getUint16 | intros v; apply IH].
Qed.

Lemma keeps_size_write_registers (n : nat) :
  forall (i start : Z) (request : list Z),
    keeps_size (write_registers n i start request).
Proof.
  induction n as [| n IH]; intros i start request; cbn [write_registers].
  - apply keeps_size_ret.
  - repeat (apply keeps_size_bind; [apply keeps_size_at | intros ?]).
    apply keeps_size_bind; [apply keeps_size_setUint16 | intros _; apply IH].
Qed.

Ltac keeps_size_step :=
  first
    [ apply keeps_size_at | apply keeps_size_reg_size | apply keeps_size_sendException
    | apply keeps_size_conn_write | apply keeps_size_setUint16
    | apply keeps_size_read_registers | apply keeps_size_write_registers
    | apply keeps_size_bind; [| intros ?]
    | match goal with |- keeps_size (if ?c then _ else _) => destruct c end ].

(** Whatever the request, a dispatch that returns has not resized the
    store. *)
Lemma processRequest_keeps_size (request : list Z) : keeps_size (processRequest request).
Proof. unfold processRequest. repeat keeps_size_step. Qed.

End StoreSize.

(** ** Exact reads return *)

Section ExactReads.

Lemma readExact_loop_returns (fuel : nat) :
  forall (buffer : list Z) (total size : nat) (w : World),
    (size - total <= fuel)%nat ->
    exists ok buffer' w',
      readExact_loop fuel buffer total size w = Ok (Exact ok buffer') w'.
Proof.
  induction fuel as [| fuel IH]; intros buffer total size w Hfuel.
  - cbn [readExact_loop].
    destruct (Nat.ltb_spec total size) as [Hlt | Hge]; [lia |].
    unfold ret. eauto.
  - cbn [readExact_loop].
    destruct (Nat.ltb_spec total size) as [Hlt | Hge]; [| unfold ret; eauto].
    unfold bind, conn_read.
    destruct (incoming (conn w)) as [| chunk rest]; cbn [fst snd].
    + change (0 <=? 0) with true. unfold ret. eauto.
    + destruct (Z.leb_spec (Z.of_nat (length (take (size - total) chunk))) 0)
        as [Hle | Hgt]; [unfold ret; eauto |].
      apply IH. lia.
Qed.

(** [readExact] never runs out of iterations: it returns [true] or
    [false]. *)
Lemma readExact_terminates (buffer : list Z) (w : World) :
  exists ok buffer' w', readExact buffer w = Ok (Exact ok buffer') w'.
Proof. apply readExact_loop_returns. lia. Qed.

(** A failed read of the prefix closes the session: nothing is
    dispatched. *)
Lemma prefix_read_failure_closes (stops : list bool) (mbap request : list Z)
    (dispatched : list (list Z)) (w w' : World) (buffer : list Z) :
  readExact mbap w = Ok (Exact false buffer) w' ->
  clientThread_loop (false :: stops) mbap request dispatched w
  = Ok (Closed dispatched) w'.
Proof. intros H. cbn [clientThread_loop]. unfold bind. rewrite H. reflexivity. Qed.

(** The result [ok] of the read of the body is not looked at: the buffer
    it leaves goes to [processRequest] whether the read succeeded or not. *)
Lemma body_read_result_ignored (stops : list bool) (mbap request : list Z)
    (dispatched : list (list Z)) (w w1 w2 : World) (prefix body : list Z)
    (l_hi l_lo : Z) (ok : bool) :
  readExact mbap w = Ok (Exact true prefix) w1 ->
  prefix !! 4%nat = Some l_hi -> prefix !! 5%nat = Some l_lo ->
  readExact (resize request (Z.to_nat (u16 (shl8_or l_hi l_lo)))) w1
  = Ok (Exact ok body) w2 ->
  clientThread_loop (false :: stops) mbap request dispatched w
  = bind (processRequest (prefix ++ body))
      (fun _ => clientThread_loop stops prefix (prefix ++ body)
                  (dispatched ++ [prefix ++ body])) w2.
Proof.
  intros Hprefix H4 H5 Hbody. cbn [clientThread_loop].
  unfold bind at 1. rewrite Hprefix.
  rewrite (bind_at _ _ l_hi) by (lia || exact H4).
  rewrite (bind_at _ _ l_lo) by (lia || exact H5).
  cbv zeta. unfold bind at 1. rewrite Hbody. reflexivity.
Qed.

End ExactReads.

(** ** Properties of the responder *)

Ltac frame_ok :=
  repeat (apply Forall_cons_2; [unfold is_byte, is_word; lia |]);
  apply Forall_nil_2.

Section Responder.

(** C1. Function 0x10 on a request that passes validation: the code
    writes the register and then replies, but the reply carries the
    length field of the request (9 here, where the reply has 6 bytes
    after its length field) and, at the place of the unit identifier,
    byte 7 of the request (the function code 0x10, where the unit is
    0x11). Evaluation of [processRequest] on [write_multiple_frame]. *)
Theorem write_multiple_reply_sample :
  processRequest write_multiple_frame (world_of zero_store)
  = Ok tt (sent [0; 1; 0; 0; 0; 9; 0x10; 0x10; 0; 1; 0; 1]
             (<[1%nat := 0x1234]> zero_store) (world_of zero_store))
  /\ write_multiple_response_spec write_multiple_frame
     = [0; 1; 0; 0; 0; 6; 0x11; 0x10; 0; 1; 0; 1]
  /\ write_multiple_response write_multiple_frame
     <> write_multiple_response_spec write_multiple_frame.
Proof.
  split; [vm_compute; reflexivity |].
  split; [vm_compute; reflexivity |].
  vm_compute. intros H. discriminate H.
Qed.

(** C2. A session whose second exact read fails: the peer closes the
    stream after four of the six announced bytes, [readExact] returns
    [false], and [clientThread] hands the half-filled frame to
    [processRequest] all the same, which overwrites register 1 and
    echoes the frame. Evaluation of [clientThread] on
    [truncated_session]. *)
Theorem partial_frame_dispatched :
  readExact (resize [] 6)
    (mkWorld (mkConnection [[0x11; 0x06; 0; 1]] []) [7; 7; 7])
  = Ok (Exact false [0x11; 0x06; 0; 1; 0; 0]) (mkWorld (mkConnection [] []) [7; 7; 7])
  /\ clientThread [false; false] truncated_session
     = Ok (Closed [[0; 1; 0; 0; 0; 6; 0x11; 0x06; 0; 1; 0; 0]])
          (mkWorld (mkConnection [] [[0; 1; 0; 0; 0; 6; 0x11; 0x06; 0; 1; 0; 0]])
                   [7; 0; 7]).
Proof. split; vm_compute; reflexivity. Qed.

(** C3. The exception reply to a request of an unsupported function has
    three bytes, but its first byte is byte 0 of the request (the high
    byte of the transaction identifier, 0xAB), not the unit identifier
    (byte 6, 0x11). Evaluation of [processRequest] on
    [read_coils_frame]. *)
Theorem illegal_function_reply_sample :
  processRequest read_coils_frame (world_of zero_store)
  = Ok tt (sent [0xAB; 0x81; 0x01] zero_store (world_of zero_store))
  /\ unitId read_coils_frame = 0x11.
Proof. split; vm_compute; reflexivity. Qed.

(** C4. When the validation of a 0x03, 0x06 or 0x10 request fails (range
    past the end of the store, address outside the store, or a byte
    count that is not twice the quantity), the dispatcher sends the
    exception reply with code 0x02 and the store is unchanged. *)
Theorem validation_failure_exception (request : list Z) (w : World) :
  is_frame request ->
  validation_fails request (reg w) ->
  processRequest request w
  = Ok tt (sent (exception_frame (unitId request) request 0x02) (reg w) w).
Proof. intros Hf Hfail. exact (dispatch_rejected request w Hf Hfail). Qed.

Lemma validation_failure_exception_witness :
  is_frame read_past_end_frame /\
  validation_fails read_past_end_frame (reg (world_of zero_store)) /\
  processRequest read_past_end_frame (world_of zero_store)
  = Ok tt (sent [0x11; 0x83; 0x02] zero_store (world_of zero_store)).
Proof.
  assert (Hf : is_frame read_past_end_frame) by (unfold read_past_end_frame; frame_ok).
  assert (Hv : validation_fails read_past_end_frame (reg (world_of zero_store))).
  { left. split; [reflexivity | split; [simpl; lia | vm_compute; reflexivity]]. }
  split; [exact Hf | split; [exact Hv |]].
  exact (validation_failure_exception read_past_end_frame (world_of zero_store) Hf Hv).
Defined.

(** C5, as the code has it. A 0x03 request in range is answered with
    transactionId, protocolId, length, unitId, 0x03, byte count and the
    [quantity] registers from [startAddress] on, each as a big-endian
    word, register [i] of the data being [store.get(startAddress + i)];
    the store is not modified. The length field is [3 + quantity*2]
    reduced modulo 65536 and the byte count is [quantity*2] reduced
    modulo 256: they are [3 + quantity*2] and [quantity*2] themselves
    when [quantity <= 127]. *)
Theorem read_holding_registers (request : list Z) (w : World) :
  is_frame request ->
  is_store (reg w) ->
  (12 <= length request)%nat ->
  functionCode request = 0x03 ->
  startAddress request + quantity request <= store_size (reg w) ->
  processRequest request w
  = Ok tt (sent (read_response request (reg w)) (reg w) w)
  /\ Z.of_nat (length (registers (reg w) (startAddress request) (quantity request)))
     = quantity request
  /\ (forall i : Z, 0 <= i < quantity request ->
        registers (reg w) (startAddress request) (quantity request) !! Z.to_nat i
        = reg w !! Z.to_nat (startAddress request + i))
  /\ (quantity request <= 127 ->
      read_response request (reg w) = read_response_spec request (reg w)).
Proof.
  intros Hf Hst Hlen Hfc Hin.
  pose proof (field_word request 8 9 Hf ltac:(lia) ltac:(lia)) as Hs.
  pose proof (field_word request 10 11 Hf ltac:(lia) ltac:(lia)) as Hq.
  fold (startAddress request) in Hs. fold (quantity request) in Hq.
  unfold is_word in Hs, Hq.
  split; [| split; [| split]].
  - apply dispatch_read_holding; try assumption.
    unfold registers. apply Forall_take, Forall_drop. exact Hst.
  - apply registers_length; lia.
  - intros i Hi. apply registers_lookup; lia.
  - intros Hsmall. unfold read_response, read_response_spec.
    rewrite !Z.mod_small by lia. reflexivity.
Qed.

Lemma read_holding_registers_witness :
  is_frame read_one_frame /\
  is_store [0; 0; 0x1234; 0] /\
  processRequest read_one_frame (world_of [0; 0; 0x1234; 0])
  = Ok tt (sent [0; 2; 0; 0; 0; 5; 0x11; 0x03; 2; 0x12; 0x34]
             [0; 0; 0x1234; 0] (world_of [0; 0; 0x1234; 0])).
Proof.
  assert (Hf : is_frame read_one_frame) by (unfold read_one_frame; frame_ok).
  assert (Hst : is_store (reg (world_of [0; 0; 0x1234; 0]))) by (cbn [reg world_of]; frame_ok).
  split; [exact Hf | split; [exact Hst |]].
  refine (proj1 (read_holding_registers read_one_frame (world_of [0; 0; 0x1234; 0])
                   Hf Hst _ _ _)).
  - simpl. lia.
  - reflexivity.
  - vm_compute. discriminate.
Defined.

(** C5, as stated, fails: for a request of 128 registers on a store of
    128 registers the byte-count byte of the reply is 0 (256 reduced to a
    byte), not [quantity*2], so the reply is not the one of the
    specification. *)
Lemma read_holding_byte_count_wraps :
  functionCode read_128_frame = 0x03 /\
  startAddress read_128_frame + quantity read_128_frame
    <= store_size (repeat 0 128%nat) /\
  quantity read_128_frame * 2 = 256 /\
  (exists response,
      processRequest read_128_frame (world_of (repeat 0 128%nat))
      = Ok tt (sent response (repeat 0 128%nat) (world_of (repeat 0 128%nat)))
      /\ byte_at response 8 = 0) /\
  processRequest read_128_frame (world_of (repeat 0 128%nat))
  <> Ok tt (sent (read_response_spec read_128_frame (repeat 0 128%nat))
              (repeat 0 128%nat) (world_of (repeat 0 128%nat))).
Proof.
  split; [reflexivity |]. split; [vm_compute; discriminate |].
  split; [reflexivity |]. split.
  - eexists. split; [vm_compute; reflexivity | reflexivity].
  - vm_compute. intros H. discriminate H.
Qed.

(** C6. A 0x06 request whose address is inside the store: after the
    dispatch the register at [startAddress] holds the word of bytes 10
    and 11 of the frame, every other register is unchanged, and the
    reply is the request frame, byte for byte. *)
Theorem write_single_register (request : list Z) (w : World) :
  is_frame request ->
  (12 <= length request)%nat ->
  functionCode request = 0x06 ->
  startAddress request < store_size (reg w) ->
  exists store',
    processRequest request w = Ok tt (sent request store' w) /\
    length store' = length (reg w) /\
    store' !! Z.to_nat (startAddress request) = Some (registerValue request) /\
    (forall j : nat, j <> Z.to_nat (startAddress request) -> store' !! j = reg w !! j).
Proof.
  intros Hf Hlen Hfc Hin.
  pose proof (field_word request 8 9 Hf ltac:(lia) ltac:(lia)) as Hs.
  fold (startAddress request) in Hs. unfold is_word, store_size in *.
  exists (<[Z.to_nat (startAddress request) := registerValue request]> (reg w)).
  split; [| split; [| split]].
  - apply dispatch_write_single; assumption.
  - apply length_insert.
  - apply list_lookup_insert_eq. lia.
  - intros j Hj. apply list_lookup_insert_ne. congruence.
Qed.

Lemma write_single_register_witness :
  is_frame write_single_frame /\
  startAddress write_single_frame < store_size (reg (world_of zero_store)) /\
  exists store',
    processRequest write_single_frame (world_of zero_store)
    = Ok tt (sent write_single_frame store' (world_of zero_store)) /\
    store' !! 2%nat = Some 0x1234.
Proof.
  assert (Hf : is_frame write_single_frame) by (unfold write_single_frame; frame_ok).
  assert (Hin : startAddress write_single_frame < store_size (reg (world_of zero_store)))
    by (vm_compute; reflexivity).
  split; [exact Hf | split; [exact Hin |]].
  destruct (write_single_register write_single_frame (world_of zero_store) Hf
              ltac:(simpl; lia) eq_refl Hin) as (store' & Hrun & _ & Hget & _).
  exists store'. split; [exact Hrun | exact Hget].
Defined.




(** C8. Round trip: a valid 0x06 request that writes [V] to register [k]
    followed by a 0x03 request that reads one register at [k] yields a
    read reply whose data word is [V]. *)
Theorem write_then_read_roundtrip (wr rd : list Z) (w : World) (k V : Z) :
  is_frame wr -> is_frame rd ->
  (12 <= length wr)%nat -> (12 <= length rd)%nat ->
  functionCode wr = 0x06 -> startAddress wr = k -> registerValue wr = V ->
  functionCode rd = 0x03 -> startAddress rd = k -> quantity rd = 1 ->
  k < store_size (reg w) ->
  exists w1,
    processRequest wr w = Ok tt w1 /\
    processRequest rd w1
    = Ok tt (sent (take 4 rd ++ [0; 5; unitId rd; 0x03; 2] ++ be_bytes V) (reg w1) w1) /\
    be16 (V / 256) (V mod 256) = V.
Proof.
  intros Hwr Hrd Lwr Lrd Fwr Awr Vwr Frd Ard Qrd Hin.
  pose proof (field_word wr 8 9 Hwr ltac:(lia) ltac:(lia)) as Hk.
  pose proof (field_word wr 10 11 Hwr ltac:(lia) ltac:(lia)) as HV.
  fold (startAddress wr) in Hk. fold (registerValue wr) in HV.
  rewrite Awr in Hk. rewrite Vwr in HV.
  exists (sent wr (<[Z.to_nat k := V]> (reg w)) w).
  split; [| split].
  - rewrite <- Awr at 1. rewrite <- Vwr. apply dispatch_write_single; try assumption.
    rewrite Awr. exact Hin.
  - assert (Hget : <[Z.to_nat k := V]> (reg w) !! Z.to_nat k = Some V).
    { apply list_lookup_insert_eq. unfold is_word, store_size in *. lia. }
    assert (Hregs : registers (<[Z.to_nat k := V]> (reg w)) k 1 = [V]).
    { unfold registers. rewrite (drop_S _ _ _ Hget). cbn. reflexivity. }
    rewrite dispatch_read_holding; try assumption.
    + unfold read_response. cbn [reg sent]. rewrite Ard, Qrd, Hregs.
      cbn [flat_map]. rewrite app_nil_r. reflexivity.
    + cbn [reg sent]. rewrite Ard, Qrd. unfold store_size in *.
      rewrite length_insert. lia.
    + cbn [reg sent]. rewrite Ard, Qrd, Hregs. apply Forall_cons_2; [exact HV |].
      apply Forall_nil_2.
  - unfold be16. pose proof (Z.div_mod V 256). lia.
Qed.

Lemma write_then_read_roundtrip_witness :
  is_frame write_single_frame /\ is_frame read_one_frame /\
  2 < store_size (reg (world_of zero_store)) /\
  exists w1,
    processRequest write_single_frame (world_of zero_store) = Ok tt w1 /\
    processRequest read_one_frame w1
    = Ok tt (sent [0; 2; 0; 0; 0; 5; 0x11; 0x03; 2; 0x12; 0x34] (reg w1) w1).
Proof.
  assert (Hwr : is_frame write_single_frame) by (unfold write_single_frame; frame_ok).
  assert (Hrd : is_frame read_one_frame) by (unfold read_one_frame; frame_ok).
  assert (Hin : 2 < store_size (reg (world_of zero_store))) by (vm_compute; reflexivity).
  split; [exact Hwr | split; [exact Hrd | split; [exact Hin |]]].
  destruct (write_then_read_roundtrip write_single_frame read_one_frame
              (world_of zero_store) 2 0x1234 Hwr Hrd
              ltac:(simpl; lia) ltac:(simpl; lia)
              eq_refl eq_refl eq_refl eq_refl eq_refl eq_refl Hin)
    as (w1 & Hrun1 & Hrun2 & _).
  exists w1. split; [exact Hrun1 | exact Hrun2].
Defined.

(** C9. The range check of functions 0x03 and 0x10 is exact: the two
    16-bit fields are added as [int]s, the sum (at most 131070) neither
    wraps modulo 65536 nor overflows, and every request whose
    [startAddress + quantity], as a sum of integers, exceeds the size of
    the store is rejected with exception 0x02, the store being
    unchanged. *)
Theorem range_check_never_wraps (request : list Z) (w : World) :
  is_frame request ->
  (functionCode request = 0x03 /\ (12 <= length request)%nat) \/
  (functionCode request = 0x10 /\ (13 <= length request)%nat) ->
  startAddress request + quantity request > store_size (reg w) ->
  startAddress request + quantity request <= 131070 /\
  to_size_t (int32 (startAddress request + quantity request))
  = startAddress request + quantity request /\
  processRequest request w
  = Ok tt (sent (exception_frame (unitId request) request 0x02) (reg w) w).
Proof.
  intros Hf Hfc Hout.
  assert (Hlen : (12 <= length request)%nat) by (destruct Hfc as [[_ H] | [_ H]]; lia).
  pose proof (field_word request 8 9 Hf ltac:(lia) ltac:(lia)) as Hs.
  pose proof (field_word request 10 11 Hf ltac:(lia) ltac:(lia)) as Hq.
  fold (startAddress request) in Hs. fold (quantity request) in Hq.
  split; [unfold is_word in *; lia |].
  split; [apply range_sum_exact; assumption |].
  apply dispatch_rejected; [exact Hf |].
  destruct Hfc as [[Hfc Hl] | [Hfc Hl]].
  - left. repeat split; assumption.
  - right. right. split; [exact Hfc | split; [exact Hl | left; exact Hout]].
Qed.

Lemma range_check_never_wraps_witness :
  is_frame [0; 5; 0; 0; 0; 6; 0x11; 0x03; 0xFF; 0xFF; 0xFF; 0xFF] /\
  startAddress [0; 5; 0; 0; 0; 6; 0x11; 0x03; 0xFF; 0xFF; 0xFF; 0xFF]
  + quantity [0; 5; 0; 0; 0; 6; 0x11; 0x03; 0xFF; 0xFF; 0xFF; 0xFF] = 131070 /\
  processRequest [0; 5; 0; 0; 0; 6; 0x11; 0x03; 0xFF; 0xFF; 0xFF; 0xFF]
    (world_of zero_store)
  = Ok tt (sent [0x11; 0x83; 0x02] zero_store (world_of zero_store)).
Proof.
  assert (Hf : is_frame [0; 5; 0; 0; 0; 6; 0x11; 0x03; 0xFF; 0xFF; 0xFF; 0xFF])
    by frame_ok.
  split; [exact Hf | split; [reflexivity |]].
  refine (proj2 (proj2 (range_check_never_wraps _ (world_of zero_store) Hf _ _))).
  - left. split; [reflexivity | simpl; lia].
  - vm_compute. reflexivity.
Defined.

End Responder.

(** ** Function 0x10 on a valid request *)

Section WriteMultiple.

Lemma write_all_lookup_out (values : list Z) :
  forall (store : list Z) (start j : nat),
    (j < start \/ start + length values <= j)%nat ->
    write_all store start values !! j = store !! j.
Proof.
  induction values as [| v values IH]; intros store start j Hj; [reflexivity |].
  cbn [write_all]. cbn [length] in Hj.
  rewrite IH by lia. apply list_lookup_insert_ne. lia.
Qed.

Lemma write_all_lookup_in (values : list Z) :
  forall (store : list Z) (start i : nat),
    (start + length values <= length store)%nat ->
    (i < length values)%nat ->
    write_all store start values !! (start + i)%nat = values !! i.
Proof.
  induction values as [| v values IH]; intros store start i Hfit Hi;
    cbn [length] in *; [lia |].
  cbn [write_all]. destruct i as [| i].
  - rewrite Nat.add_0_r, write_all_lookup_out by lia.
    apply list_lookup_insert_eq. lia.
  - replace (start + S i)%nat with (S start + i)%nat by lia.
    apply IH; rewrite ?length_insert; lia.
Qed.

Lemma request_values_length (n : nat) :
  forall data : list Z, (2 * n <= length data)%nat -> length (request_values n data) = n.
Proof.
  induction n as [| n IH]; intros data H; [reflexivity |].
  destruct data as [| hi [| lo data]]; cbn [length] in H; try lia.
  cbn [request_values length]. rewrite IH; [reflexivity | lia].
Qed.

Lemma request_values_lookup (n : nat) :
  forall (data : list Z) (i : nat),
    (2 * n <= length data)%nat -> (i < n)%nat ->
    request_values n data !! i = Some (be16 (nth (2 * i) data 0) (nth (2 * i + 1) data 0)).
Proof.
  induction n as [| n IH]; intros data i H Hi; [lia |].
  destruct data as [| hi [| lo data]]; cbn [length] in H; try lia.
  cbn [request_values]. destruct i as [| i]; [reflexivity |].
  cbn [lookup list_lookup]. rewrite IH by lia.
  replace (2 * S i)%nat with (S (S (2 * i))) by lia.
  replace (S (S (2 * i)) + 1)%nat with (S (S (2 * i + 1))) by lia.
  reflexivity.
Qed.

Lemma nth_drop (data : list Z) (k i : nat) : nth i (drop k data) 0 = nth (k + i) data 0.
Proof.
  revert data. induction k as [| k IH]; intros data; [reflexivity |].
  destruct data as [| x data]; [destruct i; reflexivity |]. apply IH.
Qed.

Lemma byte_at_byte (frame : list Z) (i : nat) :
  is_frame frame -> is_byte (byte_at frame i).
Proof.
  intros Hf. unfold byte_at.
  destruct (nth_in_or_default i frame 0) as [Hi | ->]; [| unfold is_byte; lia].
  apply list_elem_of_In in Hi. exact (proj1 (Forall_forall _ _) Hf _ Hi).
Qed.

Lemma frame_field_word (frame : list Z) (i j : nat) :
  is_frame frame -> is_word (be16 (byte_at frame i) (byte_at frame j)).
Proof. intros Hf. apply be16_word; apply byte_at_byte; exact Hf. Qed.

(** X1. A 0x10 request that holds its [quantity] values, whose range is
    inside the store and whose byte count is twice the quantity: register
    [startAddress + i] receives the big-endian word of bytes [13 + 2i] and
    [14 + 2i] of the frame for every [i < quantity], every register
    outside the range is unchanged, the store keeps its size, and the
    reply is the first six bytes of the request, byte 7 of the request,
    0x10 and the echo of the address and of the quantity. *)
Theorem write_multiple_registers (request : list Z) (w : World) :
  is_frame request ->
  functionCode request = 0x10 ->
  13 + 2 * quantity request <= Z.of_nat (length request) ->
  startAddress request + quantity request <= store_size (reg w) ->
  byteCount request = quantity request * 2 ->
  exists store',
    processRequest request w
    = Ok tt (sent (write_multiple_response request) store' w) /\
    length store' = length (reg w) /\
    (forall i : Z, 0 <= i < quantity request ->
       store' !! Z.to_nat (startAddress request + i)
       = Some (be16 (byte_at request (Z.to_nat (13 + 2 * i)))
                    (byte_at request (Z.to_nat (14 + 2 * i))))) /\
    (forall j : Z,
       0 <= j < startAddress request \/ startAddress request + quantity request <= j ->
       store' !! Z.to_nat j = reg w !! Z.to_nat j).
Proof.
  intros Hf Hfc Hlen Hin Hbc.
  pose proof (frame_field_word request 8 9 Hf) as Hs.
  pose proof (frame_field_word request 10 11 Hf) as Hq.
  fold (startAddress request) in Hs. fold (quantity request) in Hq.
  unfold is_word, store_size in *.
  set (values := request_values (Z.to_nat (quantity request)) (drop 13 request)).
  assert (Hvals : length values = Z.to_nat (quantity request)).
  { apply request_values_length. rewrite length_drop. lia. }
  exists (write_all (reg w) (Z.to_nat (startAddress request)) values).
  split; [| split; [| split]].
  - apply dispatch_write_multiple; assumption.
  - apply write_all_length.
  - intros i Hi.
    replace (Z.to_nat (startAddress request + i))
      with (Z.to_nat (startAddress request) + Z.to_nat i)%nat by lia.
    rewrite write_all_lookup_in by lia.
    unfold values. rewrite request_values_lookup by (rewrite ?length_drop; lia).
    rewrite !nth_drop. unfold byte_at. do 3 f_equal; lia.
  - intros j Hj. apply write_all_lookup_out. lia.
Qed.

Lemma write_multiple_registers_witness :
  is_frame write_multiple_frame /\
  startAddress write_multiple_frame + quantity write_multiple_frame
    <= store_size (reg (world_of zero_store)) /\
  byteCount write_multiple_frame = quantity write_multiple_frame * 2 /\
  exists store',
    processRequest write_multiple_frame (world_of zero_store)
    = Ok tt (sent [0; 1; 0; 0; 0; 9; 0x10; 0x10; 0; 1; 0; 1] store' (world_of zero_store)) /\
    store' !! 1%nat = Some 0x1234.
Proof.
  assert (Hf : is_frame write_multiple_frame) by (unfold write_multiple_frame; frame_ok).
  assert (Hin : startAddress write_multiple_frame + quantity write_multiple_frame
                <= store_size (reg (world_of zero_store))) by (vm_compute; discriminate).
  assert (Hbc : byteCount write_multiple_frame = quantity write_multiple_frame * 2)
    by reflexivity.
  split; [exact Hf | split; [exact Hin | split; [exact Hbc |]]].
  destruct (write_multiple_registers write_multiple_frame (world_of zero_store) Hf
              eq_refl ltac:(vm_compute; discriminate) Hin Hbc)
    as (store' & Hrun & _ & Hget & _).
  exists store'. split; [exact Hrun |].
  exact (Hget 0 ltac:(vm_compute; split; [discriminate | reflexivity])).
Defined.

End WriteMultiple.

(** ** What a dispatch does to the store and to the connection *)

Section Effects.

Lemma emits_ret {A : Type} (a : A) : emits 0 (ret a).
Proof.
  intros w w' a' H. inversion H. subst. split; [reflexivity |].
  exists []. rewrite app_nil_r. split; reflexivity.
Qed.

Lemma emits_bind {A B : Type} (n k : nat) (m : M A) (f : A -> M B) :
  emits n m -> (forall a, emits k (f a)) -> emits (n + k) (bind m f).
Proof.
  intros Hm Hf w w' b H. unfold bind in H.
  destruct (m w) as [a w1 |] eqn:E; [| discriminate].
  destruct (Hm _ _ _ E) as (Hi1 & out1 & Hl1 & Hw1).
  destruct (Hf a _ _ _ H) as (Hi2 & out2 & Hl2 & Hw2).
  split; [congruence |].
  exists (out1 ++ out2). split; [rewrite length_app; lia |].
  rewrite Hw2, Hw1, app_assoc. reflexivity.
Qed.

Lemma emits_silent {A : Type} (m : M A) :
  (forall w w' a, m w = Ok a w' -> conn w' = conn w) -> emits 0 m.
Proof.
  intros Hm w w' a H. rewrite (Hm _ _ _ H). split; [reflexivity |].
  exists []. rewrite app_nil_r. split; reflexivity.
Qed.

Lemma emits_at (v : list Z) (i : Z) : emits 0 (at_ v i).
Proof.
  apply emits_silent. intros w w' b H. unfold at_ in H.
  destruct (i <? 0); [discriminate |].
  destruct (v !! Z.to_nat i); inversion H. reflexivity.
Qed.

Lemma emits_reg_size : emits 0 reg_size.
Proof. apply emits_silent. intros w w' b H. inversion H. reflexivity. Qed.

Lemma emits_getUint16 (index : Z) : emits 0 (getUint16 index).
Proof.
  apply emits_silent. intros w w' b H. unfold getUint16 in H.
  destruct (index <? 0); [discriminate |].
  destruct (reg w !! Z.to_nat index); inversion H. reflexivity.
Qed.

Lemma emits_setUint16 (index value : Z) : emits 0 (setUint16 index value).
Proof.
  apply emits_silent. intros w w' b H. unfold setUint16 in H.
  destruct ((0 <=? index) && (index <? Z.of_nat (length (reg w)))); inversion H.
  reflexivity.
Qed.

Lemma emits_conn_write (data : list Z) : emits 1 (conn_write data).
Proof.
  intros w w' b H. inversion H. subst. cbn [conn incoming written].
  split; [reflexivity |]. exists [data]. split; reflexivity.
Qed.

Lemma emits_sendException (d fc code : Z) : emits 1 (sendException d fc code).
Proof. apply emits_conn_write. Qed.

Lemma emits_read_registers (n : nat) :
  forall (i start : Z) (response : list Z), emits 0 (read_registers n i start response).
Proof.
  induction n as [| n IH]; intros i start response; cbn [read_registers].
  - apply emits_ret.
  - apply (emits_bind 0 0); [apply emits_getUint16 | intros v; apply IH].
Qed.

Lemma emits_write_registers (n : nat) :
  forall (i start : Z) (request : list Z), emits 0 (write_registers n i start request).
Proof.
  induction n as [| n IH]; intros i start request; cbn [write_registers].
  - apply emits_ret.
  - repeat (apply (emits_bind 0 0); [apply emits_at | intros ?]).
    apply (emits_bind 0 0); [apply emits_setUint16 | intros _; apply IH].
Qed.

Ltac emits_step :=
  first
    [ apply emits_sendException | apply emits_conn_write
    | apply (emits_bind 0 1); [first [ apply emits_at | apply emits_reg_size
                                      | apply emits_setUint16
                                      | apply emits_read_registers
                                      | apply emits_write_registers ] | intros ?]
    | match goal with |- emits _ (if ?c then _ else _) => destruct c end ].

Lemma processRequest_emits (request : list Z) : emits 1 (processRequest request).
Proof. unfold processRequest. repeat emits_step. Qed.

Lemma keeps_words_bind {A B : Type} (m : M A) (k : A -> M B) :
  keeps_words m -> (forall a, keeps_words (k a)) -> keeps_words (bind m k).
Proof.
  intros Hm Hk w w' b H Hst. unfold bind in H.
  destruct (m w) as [a w1 |] eqn:E; [| discriminate].
  exact (Hk a _ _ _ H (Hm _ _ _ E Hst)).
Qed.

Lemma keeps_words_fixed {A : Type} (m : M A) :
  (forall w w' a, m w = Ok a w' -> reg w' = reg w) -> keeps_words m.
Proof. intros Hm w w' a H Hst. rewrite (Hm _ _ _ H). exact Hst. Qed.

Lemma keeps_words_at (v : list Z) (i : Z) : keeps_words (at_ v i).
Proof.
  apply keeps_words_fixed. intros w w' b H. unfold at_ in H.
  destruct (i <? 0); [discriminate |].
  destruct (v !! Z.to_nat i); inversion H. reflexivity.
Qed.

Lemma keeps_words_getUint16 (index : Z) : keeps_words (getUint16 index).
Proof.
  apply keeps_words_fixed. intros w w' b H. unfold getUint16 in H.
  destruct (index <? 0); [discriminate |].
  destruct (reg w !! Z.to_nat index); inversion H. reflexivity.
Qed.

Lemma keeps_words_setUint16 (index value : Z) : keeps_words (setUint16 index value).
Proof.
  intros w w' b H Hst. unfold setUint16 in H.
  destruct ((0 <=? index) && (index <? Z.of_nat (length (reg w)))); inversion H.
  cbn [reg]. apply Forall_insert; [exact Hst |].
  unfold is_word, u16. apply Z.mod_pos_bound. lia.
Qed.

Lemma keeps_words_conn_write (data : list Z) : keeps_words (conn_write data).
Proof. apply keeps_words_fixed. intros w w' b H. inversion H. reflexivity. Qed.

Lemma keeps_words_read_registers (n : nat) :
  forall (i start : Z) (response : list Z), keeps_words (read_registers n i start response).
Proof.
  induction n as [| n IH]; intros i start response; cbn [read_registers].
  - apply keeps_words_fixed. intros w w' a H. inversion H. reflexivity.
  - apply keeps_words_bind; [apply keeps_words_getUint16 | intros v; apply IH].
Qed.

Lemma keeps_words_write_registers (n : nat) :
  forall (i start : Z) (request : list Z), keeps_words (write_registers n i start request).
Proof.
  induction n as [| n IH]; intros i start request; cbn [write_registers].
  - apply keeps_words_fixed. intros w w' a H. inversion H. reflexivity.
  - repeat (apply keeps_words_bind; [apply keeps_words_at | intros ?]).
    apply keeps_words_bind; [apply keeps_words_setUint16 | intros _; apply IH].
Qed.

Ltac keeps_words_step :=
  first
    [ apply keeps_words_at | apply keeps_words_conn_write | apply keeps_words_setUint16
    | apply keeps_words_read_registers | apply keeps_words_write_registers
    | apply keeps_words_fixed; intros ? ? ? H; inversion H; reflexivity
    | apply keeps_words_bind; [| intros ?]
    | match goal with |- keeps_words (if ?c then _ else _) => destruct c end ].

Lemma processRequest_keeps_words (request : list Z) : keeps_words (processRequest request).
Proof. unfold processRequest, sendException. repeat keeps_words_step. Qed.

End Effects.

(** ** The accesses of the dispatcher to the store are in range *)

Section Bounds.

Lemma at_cases (v : list Z) (i : Z) (w : World) :
  (exists b, at_ v i w = Ok b w) \/ at_ v i w = Undefined VectorOutOfRange.
Proof.
  unfold at_. destruct (i <? 0); [right; reflexivity |].
  destruct (v !! Z.to_nat i) as [b |]; [left; eauto | right; reflexivity].
Qed.

Lemma bind_at_safe {B : Type} (v : list Z) (i : Z) (k : Z -> M B) (w : World) :
  (forall b, k b w <> Undefined RegisterOutOfRange) ->
  bind (at_ v i) k w <> Undefined RegisterOutOfRange.
Proof.
  intros Hk. unfold bind.
  destruct (at_cases v i w) as [[b ->] | ->]; [apply Hk | discriminate].
Qed.

Lemma u16_is_word (z : Z) : is_word (u16 z).
Proof. unfold is_word, u16. apply Z.mod_pos_bound. lia. Qed.

(** The loop of function 0x03 returns when the range is inside the
    store. *)
Lemma read_registers_defined (n : nat) :
  forall (i start : Z) (response : list Z) (w : World),
    is_word start -> 0 <= i -> i + Z.of_nat n <= 65535 ->
    start + i + Z.of_nat n <= store_size (reg w) ->
    exists response', read_registers n i start response w = Ok response' w.
Proof.
  induction n as [| n IH]; intros i start response w Hs Hi Hn Hsz.
  - eexists. reflexivity.
  - unfold is_word, store_size in *.
    destruct (lookup_lt_is_Some_2 (reg w) (Z.to_nat (start + i))) as [v Hv]; [lia |].
    cbn [read_registers]. rewrite int32_small by lia.
    rewrite (bind_getUint16 _ v) by (lia || assumption). cbv zeta.
    rewrite (u16_word (i + 1)) by (unfold is_word; lia).
    apply IH; unfold is_word, store_size; lia.
Qed.

(** The loop of function 0x10 stops, if at all, on a read past the end of
    the request, never on a register outside the store. *)
Lemma write_registers_safe (n : nat) :
  forall (i start : Z) (request : list Z) (w : World),
    is_word start -> 0 <= i -> i + Z.of_nat n <= 65535 ->
    start + i + Z.of_nat n <= store_size (reg w) ->
    match write_registers n i start request w with
    | Ok _ w' => length (reg w') = length (reg w)
    | Undefined f => f = VectorOutOfRange
    end.
Proof.
  induction n as [| n IH]; intros i start request w Hs Hi Hn Hsz.
  - reflexivity.
  - unfold is_word, store_size in *. cbn [write_registers]. unfold bind at 1.
    destruct (at_cases request (int32 (headerSize + 7 + int32 (i * 2))) w)
      as [[hi ->] | ->]; [| reflexivity].
    unfold bind at 1.
    destruct (at_cases request (int32 (headerSize + 8 + int32 (i * 2))) w)
      as [[lo ->] | ->]; [| reflexivity].
    cbv zeta. rewrite int32_small by lia.
    rewrite bind_setUint16 by (unfold store_size; lia).
    rewrite (u16_word (i + 1)) by (unfold is_word; lia).
    match goal with
    | |- context [write_registers n (i + 1) start request ?w1] =>
        pose proof (IH (i + 1) start request w1) as Hrec
    end.
    cbn [reg] in Hrec. rewrite length_insert in Hrec.
    apply Hrec; unfold is_word, store_size; lia.
Qed.

Lemma sendException_returns (d fc code : Z) (w : World) :
  exists w', sendException d fc code w = Ok tt w'.
Proof. eexists. reflexivity. Qed.

Lemma dispatch_never_faults_on_store (request : list Z) (w : World) :
  processRequest request w <> Undefined RegisterOutOfRange.
Proof.
  unfold processRequest.
  do 5 (apply bind_at_safe; intros ?).
  match goal with
  | |- context [u16 (shl8_or ?a ?b) + u16 (shl8_or ?c ?d)] =>
      pose proof (u16_is_word (shl8_or a b)) as Hs;
      pose proof (u16_is_word (shl8_or c d)) as Hq;
      generalize dependent (u16 (shl8_or a b));
      generalize dependent (u16 (shl8_or c d))
  end.
  intros q Hq s Hs.
  match goal with |- context [if ?fc =? 3 then _ else _] => rename fc into f end.
  destruct (f =? 3).
  - rewrite bind_reg_size, range_sum_exact by assumption.
    destruct (Z.gtb_spec (s + q) (store_size (reg w))) as [Hgt | Hle].
    + apply bind_at_safe. intros d. discriminate.
    + apply bind_at_safe. intros u. unfold bind.
      unfold is_word in Hq.
      destruct (read_registers_defined (Z.to_nat q) 0 s
                  (((((take 4 request ++
                       [u8 (Z.shiftr (u16 (int32 (3 + int32 (q * 2)))) 8)]) ++
                      [u8 (Z.land (u16 (int32 (3 + int32 (q * 2)))) 0xFF)]) ++ [u]) ++
                    [f]) ++ [u8 (int32 (q * 2))]) w) as [r ->];
        try assumption; try lia.
      discriminate.
  - destruct (f =? 6).
    + rewrite bind_reg_size. unfold is_word in Hs.
      rewrite to_size_t_small by lia.
      destruct (Z.geb_spec s (store_size (reg w))) as [Hge | Hlt].
      * apply bind_at_safe. intros d. discriminate.
      * do 2 (apply bind_at_safe; intros ?).
        rewrite bind_setUint16 by lia. discriminate.
    + destruct (f =? 16); [| apply bind_at_safe; intros d; discriminate].
      do 5 (apply bind_at_safe; intros ?).
      match goal with
      | |- context [u16 (shl8_or ?a ?b) + u16 (shl8_or ?c ?d)] =>
          pose proof (u16_is_word (shl8_or a b)) as Hs';
          pose proof (u16_is_word (shl8_or c d)) as Hq';
          generalize dependent (u16 (shl8_or a b));
          generalize dependent (u16 (shl8_or c d))
      end.
      intros q' Hq' s' Hs'.
      rewrite bind_reg_size, range_sum_exact by assumption.
      destruct (Z.gtb_spec (s' + q') (store_size (reg w))) as [Hgt | Hle];
        cbn [orb]; [apply bind_at_safe; intros d; discriminate |].
      match goal with |- context [negb ?c] => destruct c end; cbn [negb];
        [| apply bind_at_safe; intros d; discriminate].
      unfold bind at 1. unfold is_word in Hq'.
      pose proof (write_registers_safe (Z.to_nat q') 0 s' request w Hs'
                    ltac:(lia) ltac:(lia) ltac:(lia)) as Hrun.
      destruct (write_registers (Z.to_nat q') 0 s' request w) as [[] w' | fl];
        [| congruence].
      apply bind_at_safe. intros u. discriminate.
Qed.

Lemma dispatch_read_returns (request : list Z) (w : World) :
  is_frame request ->
  (12 <= length request)%nat ->
  functionCode request = 0x03 ->
  startAddress request + quantity request <= store_size (reg w) ->
  exists response, processRequest request w = Ok tt (sent response (reg w) w).
Proof.
  intros Hf Hlen Hfc Hin.
  destruct (frame_header request Hlen)
    as (b0 & b1 & b2 & b3 & b4 & b5 & b6 & b7 & b8 & b9 & b10 & b11 & rest & ->).
  unfold functionCode, startAddress, quantity, byte_at in *.
  cbn [nth] in Hfc, Hin |- *. subst b7. frame_bytes Hf.
  pose proof (be16_word b8 b9 ltac:(assumption) ltac:(assumption)) as Hs.
  pose proof (be16_word b10 b11 ltac:(assumption) ltac:(assumption)) as Hq.
  unfold processRequest. do 5 step_at.
  rewrite !shl8_or_be16 by assumption.
  change (3 =? 3) with true. cbv iota.
  rewrite bind_reg_size, range_sum_exact by assumption.
  destruct (Z.gtb_spec (be16 b8 b9 + be16 b10 b11) (store_size (reg w)))
    as [Hgt | _]; [lia |].
  cbv zeta. step_at. unfold bind at 1.
  match goal with
  | |- context [read_registers ?n 0 ?s ?r w] =>
      destruct (read_registers_defined n 0 s r w) as [response ->];
        try assumption; unfold is_word in *; try lia
  end.
  exists response. reflexivity.
Qed.

(** X6. On a frame of bytes that holds the bytes the dispatcher reads
    ([well_sized]), the dispatch is defined whatever the store: it
    returns, having sent a reply. *)
Theorem dispatch_defined (request : list Z) (w : World) :
  is_frame request ->
  well_sized request ->
  exists (response store' : list Z),
    processRequest request w = Ok tt (sent response store' w).
Proof.
  intros Hf [Hlen H16].
  pose proof (frame_field_word request 8 9 Hf) as Hs.
  pose proof (frame_field_word request 10 11 Hf) as Hq.
  fold (startAddress request) in Hs. fold (quantity request) in Hq.
  destruct (Z.eq_dec (functionCode request) 0x03) as [E3 | N3].
  { destruct (Z_le_gt_dec (startAddress request + quantity request)
                (store_size (reg w))) as [Hin | Hout].
    - destruct (dispatch_read_returns request w Hf Hlen E3 Hin) as [r Hr]. eauto.
    - eexists _, _. apply dispatch_rejected; [exact Hf |]. left. auto. }
  destruct (Z.eq_dec (functionCode request) 0x06) as [E6 | N6].
  { destruct (Z_lt_ge_dec (startAddress request) (store_size (reg w))) as [Hin | Hout].
    - eexists _, _. apply dispatch_write_single; assumption.
    - eexists _, _. apply dispatch_rejected; [exact Hf |]. right. left. auto. }
  destruct (Z.eq_dec (functionCode request) 0x10) as [E16 | N16].
  { destruct (H16 E16) as [Hlen13 Hvalues].
    destruct (Z_le_gt_dec (startAddress request + quantity request)
                (store_size (reg w))) as [Hin | Hout];
      [destruct (Z.eq_dec (byteCount request) (quantity request * 2)) as [Hbc | Hbc] |].
    - eexists _, _. apply dispatch_write_multiple; auto.
    - eexists _, _. apply dispatch_rejected; [exact Hf |]. right. right. auto.
    - eexists _, _. apply dispatch_rejected; [exact Hf |]. right. right. auto. }
  eexists _, _. apply dispatch_illegal_function; assumption.
Qed.

Lemma dispatch_defined_witness :
  is_frame write_multiple_frame /\ well_sized write_multiple_frame /\
  exists response store',
    processRequest write_multiple_frame (world_of [5; 6])
    = Ok tt (sent response store' (world_of [5; 6])).
Proof.
  assert (Hf : is_frame write_multiple_frame) by (unfold write_multiple_frame; frame_ok).
  assert (Hw : well_sized write_multiple_frame).
  { split; [simpl; lia |]. intros _. split; [simpl; lia |].
    intros _. vm_compute. discriminate. }
  split; [exact Hf | split; [exact Hw |]].
  exact (dispatch_defined write_multiple_frame (world_of [5; 6]) Hf Hw).
Defined.

End Bounds.

(** ** Exact reads against the byte stream *)

Section Stream.

Lemma with_incoming_same (w : World) : with_incoming (incoming (conn w)) w = w.
Proof. destruct w as [[i o] r]. reflexivity. Qed.

Lemma readExact_loop_done (fuel : nat) (buffer : list Z) (size : nat) (w : World) :
  readExact_loop fuel buffer size size w = Ok (Exact true buffer) w.
Proof.
  destruct fuel; cbn [readExact_loop]; rewrite Nat.ltb_irrefl, Nat.eqb_refl; reflexivity.
Qed.

Lemma store_at_take (buffer data : list Z) (off : nat) :
  (off <= length buffer)%nat ->
  take (off + length data) (store_at buffer off data) = take off buffer ++ data.
Proof.
  intros H. unfold store_at. rewrite app_assoc.
  rewrite take_app_length'; [reflexivity |].
  rewrite length_app, length_take. lia.
Qed.

Lemma store_at_drop (buffer data : list Z) (off k : nat) :
  (off <= length buffer)%nat ->
  drop (off + length data + k) (store_at buffer off data)
  = drop (off + length data + k) buffer.
Proof.
  intros H. unfold store_at. rewrite app_assoc.
  rewrite drop_app_ge by (rewrite length_app, length_take; lia).
  rewrite length_app, length_take, drop_drop.
  f_equal. lia.
Qed.

Lemma store_at_length (buffer data : list Z) (off : nat) :
  (off + length data <= length buffer)%nat ->
  length (store_at buffer off data) = length buffer.
Proof.
  intros H. unfold store_at.
  rewrite !length_app, length_take, length_drop. lia.
Qed.

(** One iteration of the loop on a stream that still has a chunk. *)
Lemma readExact_loop_step (fuel : nat) (buffer chunk : list Z)
    (rest : list (list Z)) (total size : nat) (w : World) :
  incoming (conn w) = chunk :: rest -> chunk <> [] -> (total < size)%nat ->
  readExact_loop (S fuel) buffer total size w
  = readExact_loop fuel (store_at buffer total (take (size - total) chunk))
      (total + length (take (size - total) chunk)) size
      (with_incoming match drop (size - total) chunk with
                     | [] => rest
                     | _ => drop (size - total) chunk :: rest
                     end w).
Proof.
  intros Hin Hc Hlt. cbn [readExact_loop].
  destruct (Nat.ltb_spec total size) as [_ | Hge]; [| lia].
  unfold bind, conn_read. rewrite Hin. cbn [fst snd].
  destruct (Z.leb_spec (Z.of_nat (length (take (size - total) chunk))) 0) as [Hle | _].
  - destruct chunk as [| x chunk]; [congruence |].
    rewrite length_take in Hle. cbn [length] in Hle. lia.
  - rewrite Nat2Z.id. reflexivity.
Qed.

Lemma readExact_loop_enough (chunks : list (list Z)) :
  forall (fuel : nat) (buffer : list Z) (total size : nat) (w : World),
    incoming (conn w) = chunks -> live chunks ->
    (total <= size)%nat -> length buffer = size ->
    (size - total <= fuel)%nat ->
    (size - total <= length (concat chunks))%nat ->
    exists chunks',
      readExact_loop fuel buffer total size w
      = Ok (Exact true (take total buffer ++ take (size - total) (concat chunks)))
           (with_incoming chunks' w) /\
      concat chunks' = drop (size - total) (concat chunks) /\
      live chunks'.
Proof.
  induction chunks as [| chunk rest IH];
    intros fuel buffer total size w Hin Hlive Htot Hbuf Hfuel Hlen.
  - cbn [concat length] in Hlen. assert (total = size) by lia. subst total.
    exists (incoming (conn w)).
    rewrite readExact_loop_done, Nat.sub_diag, take_0, app_nil_r.
    rewrite <- Hbuf, firstn_all, with_incoming_same, Hin.
    repeat split. apply Forall_nil_2.
  - destruct (Nat.eq_dec total size) as [-> | Hne].
    + exists (incoming (conn w)).
      rewrite readExact_loop_done, Nat.sub_diag, take_0, app_nil_r, drop_0.
      rewrite <- Hbuf, firstn_all, with_incoming_same, Hin.
      repeat split. exact Hlive.
    + destruct fuel as [| fuel]; [lia |].
      apply Forall_cons in Hlive. destruct Hlive as [Hc Hlive].
      rewrite (readExact_loop_step _ _ chunk rest) by (assumption || lia).
      cbn [concat].
      assert (Hpos : (0 < length chunk)%nat)
        by (destruct chunk; [congruence | cbn [length]; lia]).
      destruct (Nat.le_gt_cases (length chunk) (size - total)) as [Hall | Hpart].
      * rewrite take_ge, drop_ge by lia.
        assert (Hbuf' : length (store_at buffer total chunk) = size)
          by (rewrite store_at_length; lia).
        assert (Hlen' : (size - (total + length chunk) <= length (concat rest))%nat)
          by (cbn [concat] in Hlen; rewrite length_app in Hlen; lia).
        destruct (IH fuel (store_at buffer total chunk) (total + length chunk)%nat size
                    (with_incoming rest w) eq_refl Hlive ltac:(lia) Hbuf' ltac:(lia) Hlen')
          as (chunks' & Hrun & Hcat & Hl').
        exists chunks'. split; [| split; [| exact Hl']].
        -- rewrite Hrun, store_at_take by lia.
           rewrite take_app_ge, <- app_assoc by lia.
           replace (size - (total + length chunk))%nat
             with (size - total - length chunk)%nat by lia.
           reflexivity.
        -- rewrite Hcat, drop_app_ge by lia. f_equal. lia.
      * assert (Hleft : drop (size - total) chunk <> []).
        { intros E. apply (f_equal length) in E. rewrite length_drop in E.
          cbn [length] in E. lia. }
        destruct (drop (size - total) chunk) as [| y left] eqn:Edrop; [congruence |].
        rewrite length_take, Nat.min_l by lia.
        replace (total + (size - total))%nat with size by lia.
        rewrite readExact_loop_done.
        exists ((y :: left) :: rest). split; [| split].
        -- rewrite take_app_le by lia. unfold store_at.
           rewrite (drop_ge buffer) by (rewrite length_take; lia).
           rewrite app_nil_r. reflexivity.
        -- cbn [concat]. rewrite <- Edrop, drop_app_le by lia. reflexivity.
        -- apply Forall_cons_2; [discriminate | exact Hlive].
Qed.

Lemma readExact_loop_starved (chunks : list (list Z)) :
  forall (fuel : nat) (buffer : list Z) (total size : nat) (w : World),
    incoming (conn w) = chunks -> live chunks ->
    length buffer = size -> (size - total <= fuel)%nat ->
    (length (concat chunks) < size - total)%nat ->
    readExact_loop fuel buffer total size w
    = Ok (Exact false (take total buffer ++ concat chunks
                       ++ drop (total + length (concat chunks)) buffer))
         (with_incoming [] w).
Proof.
  induction chunks as [| chunk rest IH];
    intros fuel buffer total size w Hin Hlive Hbuf Hfuel Hlen.
  - destruct fuel as [| fuel]; [lia |]. cbn [readExact_loop concat length app].
    destruct (Nat.ltb_spec total size) as [_ | Hge]; [| lia].
    unfold bind, conn_read. rewrite Hin. cbn [fst].
    change (0 <=? 0) with true. cbv iota. unfold ret.
    rewrite Nat.add_0_r, take_drop.
    rewrite <- (with_incoming_same w) at 1. rewrite Hin. reflexivity.
  - destruct fuel as [| fuel]; [lia |].
    apply Forall_cons in Hlive. destruct Hlive as [Hc Hlive].
    cbn [concat] in Hlen |- *. rewrite length_app in Hlen |- *.
    assert (Hpos : (0 < length chunk)%nat)
      by (destruct chunk; [congruence | cbn [length]; lia]).
    rewrite (readExact_loop_step _ _ chunk rest) by (assumption || lia).
    rewrite take_ge, drop_ge by lia.
    rewrite (IH fuel _ _ size (with_incoming rest w));
      try reflexivity; try assumption; try lia.
    + rewrite store_at_take by lia.
      rewrite Nat.add_assoc, store_at_drop by lia.
      rewrite <- !app_assoc. reflexivity.
    + rewrite store_at_length; lia.
Qed.

End Stream.

(** ** Properties of the dispatcher and of the exact read *)

Section MoreProperties.

(** X2. A dispatch that returns leaves the store at its size, and leaves
    16-bit words in a store of 16-bit words, whatever the request. *)
Theorem dispatch_preserves_store (request : list Z) (w w' : World) (a : unit) :
  processRequest request w = Ok a w' ->
  length (reg w') = length (reg w) /\ (is_store (reg w) -> is_store (reg w')).
Proof.
  intros H. split.
  - exact (processRequest_keeps_size request w w' a H).
  - exact (processRequest_keeps_words request w w' a H).
Qed.

Lemma dispatch_preserves_store_witness :
  processRequest write_single_frame (world_of zero_store)
  = Ok tt (sent write_single_frame (<[2%nat := 0x1234]> zero_store) (world_of zero_store))
  /\ length (<[2%nat := 0x1234]> zero_store) = length zero_store
  /\ (is_store zero_store -> is_store (<[2%nat := 0x1234]> zero_store)).
Proof.
  assert (Hrun : processRequest write_single_frame (world_of zero_store)
                 = Ok tt (sent write_single_frame (<[2%nat := 0x1234]> zero_store)
                            (world_of zero_store))) by (vm_compute; reflexivity).
  split; [exact Hrun |].
  exact (dispatch_preserves_store write_single_frame (world_of zero_store) _ tt Hrun).
Defined.

(** X3. A dispatch that returns has passed exactly one buffer to [write]
    and has read nothing from the connection, whatever the request. *)
Theorem dispatch_sends_one_reply (request : list Z) (w w' : World) (a : unit) :
  processRequest request w = Ok a w' ->
  incoming (conn w') = incoming (conn w) /\
  exists response, written (conn w') = written (conn w) ++ [response].
Proof.
  intros H. destruct (processRequest_emits request w w' a H) as (Hin & out & Hl & Hw).
  split; [exact Hin |].
  destruct out as [| response [| ? ?]]; cbn [length] in Hl; try lia.
  exists response. exact Hw.
Qed.

Lemma dispatch_sends_one_reply_witness :
  processRequest read_past_end_frame (world_of zero_store)
  = Ok tt (sent [0x11; 0x83; 0x02] zero_store (world_of zero_store))
  /\ exists response,
       written (conn (sent [0x11; 0x83; 0x02] zero_store (world_of zero_store)))
       = written (conn (world_of zero_store)) ++ [response].
Proof.
  assert (Hrun : processRequest read_past_end_frame (world_of zero_store)
                 = Ok tt (sent [0x11; 0x83; 0x02] zero_store (world_of zero_store)))
    by (vm_compute; reflexivity).
  split; [exact Hrun |].
  exact (proj2 (dispatch_sends_one_reply read_past_end_frame (world_of zero_store) _ tt Hrun)).
Defined.

(** X4. On a frame of fewer than 12 bytes the dispatcher reads past the
    end of the request, whatever the function code and the store: the
    start address and the quantity are read before the function code is
    looked at. *)
Theorem short_frame_out_of_range (request : list Z) (w : World) :
  (length request < 12)%nat ->
  processRequest request w = Undefined VectorOutOfRange.
Proof.
  intros H.
  do 12 (destruct request as [| ? request]; [reflexivity |]).
  cbn [length] in H. lia.
Qed.

Lemma short_frame_out_of_range_witness :
  (length read_exception_status_frame < 12)%nat /\
  processRequest read_exception_status_frame (world_of zero_store)
  = Undefined VectorOutOfRange.
Proof.
  assert (H : (length read_exception_status_frame < 12)%nat) by (simpl; lia).
  split; [exact H |].
  exact (short_frame_out_of_range read_exception_status_frame (world_of zero_store) H).
Defined.

(** X5. The dispatcher never passes an index outside the store to
    [getUint16] or [setUint16], whatever the request and the store: its
    own checks keep every access in range. *)
Theorem store_access_in_range (request : list Z) (w : World) :
  processRequest request w <> Undefined RegisterOutOfRange.
Proof. exact (dispatch_never_faults_on_store request w). Qed.

Lemma readExact_enough (buffer : list Z) (w : World) :
  live (incoming (conn w)) ->
  (length buffer <= length (pending w))%nat ->
  exists chunks',
    readExact buffer w
    = Ok (Exact true (take (length buffer) (pending w))) (with_incoming chunks' w) /\
    concat chunks' = drop (length buffer) (pending w) /\
    live chunks'.
Proof.
  intros Hlive Hlen. unfold readExact, pending in *.
  destruct (readExact_loop_enough (incoming (conn w)) (length buffer) buffer 0
              (length buffer) w eq_refl Hlive ltac:(lia) eq_refl ltac:(lia) ltac:(lia))
    as (chunks' & Hrun & Hcat & Hl').
  rewrite Nat.sub_0_r in Hrun, Hcat. cbn [take app] in Hrun.
  exists chunks'. auto.
Qed.

(** X7. An exact read reassembles the stream: when the chunks still to
    come hold at least as many bytes as the buffer, [readExact] returns
    [true], the buffer holds the next bytes of the stream however they
    are cut into chunks, and the bytes after them stay on the
    connection, in order. *)
Theorem readExact_reassembles (buffer : list Z) (w : World) :
  live (incoming (conn w)) ->
  (length buffer <= length (pending w))%nat ->
  exists chunks',
    readExact buffer w
    = Ok (Exact true (take (length buffer) (pending w))) (with_incoming chunks' w) /\
    concat chunks' = drop (length buffer) (pending w) /\
    live chunks'.
Proof. exact (readExact_enough buffer w). Qed.

Lemma readExact_reassembles_witness :
  live [[1; 2]; [3]; [4; 5; 6]] /\
  exists chunks',
    readExact [0; 0; 0; 0] (mkWorld (mkConnection [[1; 2]; [3]; [4; 5; 6]] []) [])
    = Ok (Exact true [1; 2; 3; 4]) (mkWorld (mkConnection chunks' []) []) /\
    concat chunks' = [5; 6] /\
    live chunks'.
Proof.
  assert (Hl : live [[1; 2]; [3]; [4; 5; 6]])
    by (repeat (apply Forall_cons_2; [discriminate |]); apply Forall_nil_2).
  split; [exact Hl |].
  exact (readExact_reassembles [0; 0; 0; 0]
           (mkWorld (mkConnection [[1; 2]; [3]; [4; 5; 6]] []) []) Hl
           ltac:(simpl; lia)).
Defined.

Lemma readExact_starved (buffer : list Z) (w : World) :
  live (incoming (conn w)) ->
  (length (pending w) < length buffer)%nat ->
  readExact buffer w
  = Ok (Exact false (pending w ++ drop (length (pending w)) buffer))
       (with_incoming [] w).
Proof.
  intros Hlive Hlen. unfold readExact, pending in *.
  rewrite (readExact_loop_starved (incoming (conn w)))
    by (reflexivity || assumption || lia).
  reflexivity.
Qed.

(** X8. An exact read on a stream that ends too early: when the chunks
    still to come hold fewer bytes than the buffer, [readExact] returns
    [false], the bytes received are at the front of the buffer, the rest
    of the buffer is as it was, and the stream is used up. *)
Theorem readExact_short_stream (buffer : list Z) (w : World) :
  live (incoming (conn w)) ->
  (length (pending w) < length buffer)%nat ->
  readExact buffer w
  = Ok (Exact false (pending w ++ drop (length (pending w)) buffer))
       (with_incoming [] w).
Proof. exact (readExact_starved buffer w). Qed.

Lemma readExact_short_stream_witness :
  live [[1; 2]; [3]] /\
  readExact [9; 9; 9; 9; 9] (mkWorld (mkConnection [[1; 2]; [3]] []) [])
  = Ok (Exact false [1; 2; 3; 9; 9]) (mkWorld (mkConnection [] []) []).
Proof.
  assert (Hl : live [[1; 2]; [3]])
    by (repeat (apply Forall_cons_2; [discriminate |]); apply Forall_nil_2).
  split; [exact Hl |].
  exact (readExact_short_stream [9; 9; 9; 9; 9]
           (mkWorld (mkConnection [[1; 2]; [3]] []) []) Hl ltac:(simpl; lia)).
Defined.

End MoreProperties.

(** ** The session of a peer that sends complete frames *)

Section Sessions.

Lemma with_incoming_twice (c1 c2 : list (list Z)) (w : World) :
  with_incoming c1 (with_incoming c2 w) = with_incoming c1 w.
Proof. reflexivity. Qed.

Lemma ignores_ret {A : Type} (a : A) : ignores_incoming (ret a).
Proof. intros c w. reflexivity. Qed.

Lemma ignores_bind {A B : Type} (m : M A) (k : A -> M B) :
  ignores_incoming m -> (forall a, ignores_incoming (k a)) -> ignores_incoming (bind m k).
Proof.
  intros Hm Hk c w. unfold bind. rewrite Hm.
  destruct (m w) as [a w1 | f]; cbn [map_world]; [apply Hk | reflexivity].
Qed.

Lemma ignores_at (v : list Z) (i : Z) : ignores_incoming (at_ v i).
Proof.
  intros c w. unfold at_. destruct (i <? 0); [reflexivity |].
  destruct (v !! Z.to_nat i); reflexivity.
Qed.

Lemma ignores_reg_size : ignores_incoming reg_size.
Proof. intros c w. reflexivity. Qed.

Lemma ignores_getUint16 (index : Z) : ignores_incoming (getUint16 index).
Proof.
  intros c w. unfold getUint16. cbn [reg with_incoming].
  destruct (index <? 0); [reflexivity |].
  destruct (reg w !! Z.to_nat index); reflexivity.
Qed.

Lemma ignores_setUint16 (index value : Z) : ignores_incoming (setUint16 index value).
Proof.
  intros c w. unfold setUint16. cbn [reg with_incoming].
  destruct ((0 <=? index) && (index <? Z.of_nat (length (reg w)))); reflexivity.
Qed.

Lemma ignores_conn_write (data : list Z) : ignores_incoming (conn_write data).
Proof. intros c w. reflexivity. Qed.

Lemma ignores_read_registers (n : nat) :
  forall (i start : Z) (response : list Z),
    ignores_incoming (read_registers n i start response).
Proof.
  induction n as [| n IH]; intros i start response; cbn [read_registers].
  - apply ignores_ret.
  - apply ignores_bind; [apply ignores_getUint16 | intros v; apply IH].
Qed.

Lemma ignores_write_registers (n : nat) :
  forall (i start : Z) (request : list Z),
    ignores_incoming (write_registers n i start request).
Proof.
  induction n as [| n IH]; intros i start request; cbn [write_registers].
  - apply ignores_ret.
  - repeat (apply ignores_bind; [apply ignores_at | intros ?]).
    apply ignores_bind; [apply ignores_setUint16 | intros _; apply IH].
Qed.

Ltac ignores_step :=
  first
    [ apply ignores_at | apply ignores_reg_size | apply ignores_conn_write
    | apply ignores_setUint16 | apply ignores_read_registers
    | apply ignores_write_registers
    | apply ignores_bind; [| intros ?]
    | match goal with |- ignores_incoming (if ?c then _ else _) => destruct c end ].

Lemma processRequest_ignores_incoming (request : list Z) :
  ignores_incoming (processRequest request).
Proof. unfold processRequest, sendException. repeat ignores_step. Qed.

Lemma live_nil_pending (chunks : list (list Z)) :
  live chunks -> concat chunks = [] -> chunks = [].
Proof.
  intros Hl Hc. destruct chunks as [| c chunks]; [reflexivity |].
  apply Forall_cons in Hl. destruct Hl as [Hne _].
  cbn [concat] in Hc. apply app_eq_nil in Hc. tauto.
Qed.

Lemma lookup_byte_at (frame : list Z) (i : nat) :
  (i < length frame)%nat -> frame !! i = Some (byte_at frame i).
Proof.
  intros Hi. unfold byte_at.
  destruct (lookup_lt_is_Some_2 frame i Hi) as [b Hb].
  rewrite Hb. f_equal. symmetry. apply nth_lookup_Some with (d := 0) in Hb. exact Hb.
Qed.

Lemma resize_length (v : list Z) (n : nat) : length (resize v n) = n.
Proof. unfold resize. rewrite length_app, length_take, repeat_length. lia. Qed.

Lemma clientThread_loop_frames (frames : list (list Z)) :
  forall (rest : list bool) (mbap request : list Z) (dispatched : list (list Z))
         (w : World),
    length mbap = 6%nat ->
    Forall is_frame frames -> Forall framed frames ->
    live (incoming (conn w)) -> pending w = concat frames ->
    clientThread_loop (repeat false (length frames) ++ rest) mbap request dispatched w
    = bind (dispatch_all frames) (fun _ => ret (Closed (dispatched ++ frames)))
        (with_incoming [] w).
Proof.
  induction frames as [| f fs IH];
    intros rest mbap request dispatched w Hmbap Hbytes Hframed Hlive Hpend.
  - cbn [length repeat app dispatch_all concat] in *.
    assert (Hin : incoming (conn w) = []) by (apply live_nil_pending; assumption).
    assert (Hw : with_incoming [] w = w) by (rewrite <- Hin; apply with_incoming_same).
    rewrite app_nil_r. unfold bind, ret. rewrite Hw.
    destruct rest as [| [|] rest]; cbn [clientThread_loop]; try reflexivity.
    unfold bind. rewrite readExact_starved, Hw; [reflexivity | exact Hlive |].
    rewrite Hpend, Hmbap. cbn [length]. lia.
  - apply Forall_cons in Hbytes. destruct Hbytes as [Hf Hbytes].
    apply Forall_cons in Hframed. destruct Hframed as [[Hlen6 Hfield] Hframed].
    cbn [length repeat app concat dispatch_all] in *.
    cbn [clientThread_loop]. unfold bind at 1.
    destruct (readExact_enough mbap w Hlive) as (chunks1 & Hrun1 & Hcat1 & Hlive1).
    { rewrite Hpend, length_app, Hmbap. lia. }
    rewrite Hrun1, Hmbap, Hpend, take_app_le by lia.
    rewrite Hmbap, Hpend, drop_app_le in Hcat1 by lia.
    rewrite (bind_at _ _ (byte_at f 4));
      [| lia | cbn [Z.to_nat Pos.to_nat Pos.iter_op Nat.add];
               rewrite lookup_take_lt by lia; apply lookup_byte_at; lia].
    rewrite (bind_at _ _ (byte_at f 5));
      [| lia | cbn [Z.to_nat Pos.to_nat Pos.iter_op Nat.add];
               rewrite lookup_take_lt by lia; apply lookup_byte_at; lia].
    cbv zeta.
    rewrite shl8_or_be16 by (apply byte_at_byte; exact Hf).
    rewrite Hfield.
    replace (Z.to_nat (Z.of_nat (length f) - 6)) with (length f - 6)%nat by lia.
    unfold bind at 1.
    destruct (readExact_enough (resize request (length f - 6))
                (with_incoming chunks1 w) Hlive1) as (chunks2 & Hrun2 & Hcat2 & Hlive2).
    { rewrite resize_length. unfold pending. cbn [with_incoming conn incoming].
      rewrite Hcat1, length_app, length_drop. lia. }
    rewrite Hrun2, resize_length. unfold pending in Hcat2 |- *.
    cbn [with_incoming conn incoming written reg] in Hcat2 |- *.
    rewrite resize_length, Hcat1 in Hcat2.
    rewrite Hcat1.
    rewrite take_app_length' by (rewrite length_drop; lia).
    rewrite drop_app_length' in Hcat2 by (rewrite length_drop; lia).
    rewrite take_drop.
    change (mkWorld (mkConnection chunks2 (written (conn w))) (reg w))
      with (with_incoming chunks2 w).
    unfold bind at 1 2 3.
    rewrite !processRequest_ignores_incoming.
    destruct (processRequest f w) as [[] w3 | fl]; cbn [map_world]; [| reflexivity].
    rewrite (with_incoming_twice chunks2 chunks1 w3).
    rewrite (IH rest (take 6 f) f (dispatched ++ [f]) (with_incoming chunks2 w3));
      try assumption.
    + rewrite with_incoming_twice, <- app_assoc. reflexivity.
    + rewrite length_take. lia.
Qed.

End Sessions.

Section SessionProperties.

(** X9. A peer that sends complete frames, cut into chunks in any way, and
    then closes the stream: as long as [stop_] is not set, the session
    hands the frames to the dispatcher one by one in the order of their
    arrival, each reply going out before the next frame is read, and then
    closes; its outcome is the one of dispatching the frames in order. *)
Theorem session_dispatches_in_order (frames : list (list Z)) (rest : list bool)
    (w : World) :
  Forall is_frame frames -> Forall framed frames ->
  live (incoming (conn w)) -> pending w = concat frames ->
  clientThread (repeat false (length frames) ++ rest) w
  = bind (dispatch_all frames) (fun _ => ret (Closed frames)) (with_incoming [] w).
Proof.
  intros Hbytes Hframed Hlive Hpend. unfold clientThread.
  rewrite (clientThread_loop_frames frames rest (repeat 0 6%nat) [] [] w);
    try assumption; reflexivity.
Qed.

Lemma session_dispatches_in_order_witness :
  Forall is_frame [write_single_frame; read_one_frame] /\
  Forall framed [write_single_frame; read_one_frame] /\
  live (incoming (conn two_request_session)) /\
  pending two_request_session = concat [write_single_frame; read_one_frame] /\
  clientThread [false; false; false] two_request_session
  = Ok (Closed [write_single_frame; read_one_frame])
       (mkWorld (mkConnection []
                   [write_single_frame; [0; 2; 0; 0; 0; 5; 0x11; 0x03; 2; 0x12; 0x34]])
                (<[2%nat := 0x1234]> zero_store)).
Proof.
  assert (Hb : Forall is_frame [write_single_frame; read_one_frame]).
  { apply Forall_cons_2; [unfold write_single_frame; frame_ok |].
    apply Forall_cons_2; [unfold read_one_frame; frame_ok | apply Forall_nil_2]. }
  assert (Hf : Forall framed [write_single_frame; read_one_frame]).
  { apply Forall_cons_2; [split; [simpl; lia | reflexivity] |].
    apply Forall_cons_2; [split; [simpl; lia | reflexivity] | apply Forall_nil_2]. }
  assert (Hl : live (incoming (conn two_request_session))).
  { repeat (apply Forall_cons_2; [discriminate |]). apply Forall_nil_2. }
  assert (Hp : pending two_request_session = concat [write_single_frame; read_one_frame])
    by reflexivity.
  split; [exact Hb | split; [exact Hf | split; [exact Hl | split; [exact Hp |]]]].
  exact (session_dispatches_in_order [write_single_frame; read_one_frame] [false]
           two_request_session Hb Hf Hl Hp).
Defined.

(** X10. A stream that ends inside the six bytes of a prefix: the session
    closes without dispatching anything; nothing is written and the store
    is untouched. *)
Theorem session_drops_partial_prefix (stops : list bool) (w : World) :
  live (incoming (conn w)) ->
  (length (pending w) < 6)%nat ->
  clientThread (false :: stops) w = Ok (Closed []) (with_incoming [] w).
Proof.
  intros Hlive Hlen. unfold clientThread. cbn [clientThread_loop]. unfold bind.
  rewrite readExact_starved; [reflexivity | exact Hlive |].
  rewrite repeat_length. exact Hlen.
Qed.

Lemma session_drops_partial_prefix_witness :
  live [[0; 1]; [0; 0; 0]] /\
  clientThread [false; false] (mkWorld (mkConnection [[0; 1]; [0; 0; 0]] []) [7; 7; 7])
  = Ok (Closed []) (mkWorld (mkConnection [] []) [7; 7; 7]).
Proof.
  assert (Hl : live [[0; 1]; [0; 0; 0]])
    by (repeat (apply Forall_cons_2; [discriminate |]); apply Forall_nil_2).
  split; [exact Hl |].
  exact (session_drops_partial_prefix [false]
           (mkWorld (mkConnection [[0; 1]; [0; 0; 0]] []) [7; 7; 7]) Hl
           ltac:(simpl; lia)).
Defined.

End SessionProperties.

(** ** How requests compose *)

Section Composition.

Lemma registers_write_all (store values : list Z) (start : nat) :
  (start + length values <= length store)%nat ->
  take (length values) (drop start (write_all store start values)) = values.
Proof.
  intros Hfit. apply list_eq. intros i.
  destruct (Nat.lt_ge_cases i (length values)) as [Hi | Hi].
  - rewrite lookup_take_lt by lia. rewrite lookup_drop.
    apply write_all_lookup_in; assumption.
  - rewrite lookup_take_ge by lia. symmetry. apply lookup_ge_None. lia.
Qed.

Lemma request_values_words (n : nat) :
  forall data : list Z, Forall is_byte data -> Forall is_word (request_values n data).
Proof.
  induction n as [| n IH]; intros data Hd; [apply Forall_nil_2 |].
  destruct data as [| hi [| lo data]]; try apply Forall_nil_2.
  apply Forall_cons in Hd. destruct Hd as [Hhi Hd].
  apply Forall_cons in Hd. destruct Hd as [Hlo Hd].
  cbn [request_values]. apply Forall_cons_2; [apply be16_word; assumption | apply IH, Hd].
Qed.

Lemma request_values_bytes (n : nat) :
  forall data : list Z,
    Forall is_byte data -> (2 * n <= length data)%nat ->
    flat_map be_bytes (request_values n data) = take (2 * n) data.
Proof.
  induction n as [| n IH]; intros data Hd Hlen; [reflexivity |].
  destruct data as [| hi [| lo data]]; cbn [length] in Hlen; try lia.
  apply Forall_cons in Hd. destruct Hd as [Hhi Hd].
  apply Forall_cons in Hd. destruct Hd as [Hlo Hd].
  cbn [request_values flat_map]. rewrite be_bytes_be16 by assumption.
  rewrite IH by (assumption || lia).
  replace (2 * S n)%nat with (S (S (2 * n))) by lia. reflexivity.
Qed.

(** X11. Round trip through function 0x10: after a valid Write Multiple
    Registers request, a Read Holding Registers request for the same
    address and quantity is answered with length [3 + quantity*2], byte
    count [quantity*2] and, as data, the very data bytes of the write
    request (bytes 13 to [13 + quantity*2 - 1]). *)
Theorem write_multiple_then_read (wr rd : list Z) (w : World) :
  is_frame wr -> is_frame rd ->
  functionCode wr = 0x10 ->
  13 + 2 * quantity wr <= Z.of_nat (length wr) ->
  startAddress wr + quantity wr <= store_size (reg w) ->
  byteCount wr = quantity wr * 2 ->
  (12 <= length rd)%nat -> functionCode rd = 0x03 ->
  startAddress rd = startAddress wr -> quantity rd = quantity wr ->
  exists w1,
    processRequest wr w = Ok tt w1 /\
    processRequest rd w1
    = Ok tt (sent (take 4 rd ++ be_bytes (3 + quantity wr * 2)
                   ++ [unitId rd; 0x03; quantity wr * 2]
                   ++ take (Z.to_nat (2 * quantity wr)) (drop 13 wr))
               (reg w1) w1).
Proof.
  intros Hwr Hrd Fwr Lwr Hin Hbc Lrd Frd Ard Qrd.
  pose proof (frame_field_word wr 8 9 Hwr) as Hs.
  pose proof (frame_field_word wr 10 11 Hwr) as Hq.
  pose proof (byte_at_byte wr 12 Hwr) as Hb.
  fold (startAddress wr) in Hs. fold (quantity wr) in Hq. fold (byteCount wr) in Hb.
  unfold is_word, is_byte, store_size in *.
  set (values := request_values (Z.to_nat (quantity wr)) (drop 13 wr)).
  assert (Hvals : length values = Z.to_nat (quantity wr)).
  { apply request_values_length. rewrite length_drop. lia. }
  set (store1 := write_all (reg w) (Z.to_nat (startAddress wr)) values).
  assert (Hregs : registers store1 (startAddress wr) (quantity wr) = values).
  { unfold registers, store1. rewrite <- Hvals. apply registers_write_all. lia. }
  exists (sent (write_multiple_response wr) store1 w).
  split; [apply dispatch_write_multiple; assumption |].
  rewrite dispatch_read_holding; try assumption.
  - unfold read_response. cbn [reg sent]. rewrite Ard, Qrd, Hregs.
    rewrite !Z.mod_small by lia.
    unfold values. rewrite request_values_bytes.
    + replace (2 * Z.to_nat (quantity wr))%nat with (Z.to_nat (2 * quantity wr)) by lia.
      reflexivity.
    + apply Forall_drop. exact Hwr.
    + rewrite length_drop. lia.
  - cbn [reg sent]. rewrite Ard, Qrd. unfold store_size, store1.
    rewrite write_all_length. lia.
  - cbn [reg sent]. rewrite Ard, Qrd, Hregs.
    apply request_values_words, Forall_drop. exact Hwr.
Qed.

Lemma write_multiple_then_read_witness :
  is_frame write_multiple_frame /\ is_frame read_register_1_frame /\
  startAddress write_multiple_frame + quantity write_multiple_frame
    <= store_size (reg (world_of zero_store)) /\
  exists w1,
    processRequest write_multiple_frame (world_of zero_store) = Ok tt w1 /\
    processRequest read_register_1_frame w1
    = Ok tt (sent [0; 2; 0; 0; 0; 5; 0x11; 0x03; 2; 0x12; 0x34] (reg w1) w1).
Proof.
  assert (Hwr : is_frame write_multiple_frame) by (unfold write_multiple_frame; frame_ok).
  assert (Hrd : is_frame read_register_1_frame) by (unfold read_register_1_frame; frame_ok).
  assert (Hin : startAddress write_multiple_frame + quantity write_multiple_frame
                <= store_size (reg (world_of zero_store))) by (vm_compute; discriminate).
  split; [exact Hwr | split; [exact Hrd | split; [exact Hin |]]].
  exact (write_multiple_then_read write_multiple_frame read_register_1_frame
           (world_of zero_store) Hwr Hrd eq_refl ltac:(vm_compute; discriminate) Hin
           eq_refl ltac:(simpl; lia) eq_refl eq_refl eq_refl).
Defined.

(** X12. Two Write Single Register requests for different registers of the
    store commute: dispatched in either order they leave the same store,
    which holds both values. *)
Theorem single_writes_commute (a b : list Z) (w : World) :
  is_frame a -> is_frame b ->
  (12 <= length a)%nat -> (12 <= length b)%nat ->
  functionCode a = 0x06 -> functionCode b = 0x06 ->
  startAddress a < store_size (reg w) -> startAddress b < store_size (reg w) ->
  startAddress a <> startAddress b ->
  exists wab wba,
    (processRequest a ;;; processRequest b) w = Ok tt wab /\
    (processRequest b ;;; processRequest a) w = Ok tt wba /\
    reg wab = reg wba /\
    reg wab !! Z.to_nat (startAddress a) = Some (registerValue a) /\
    reg wab !! Z.to_nat (startAddress b) = Some (registerValue b).
Proof.
  intros Ha Hb La Lb Fa Fb Ina Inb Hne.
  pose proof (frame_field_word a 8 9 Ha) as Wa.
  pose proof (frame_field_word b 8 9 Hb) as Wb.
  fold (startAddress a) in Wa. fold (startAddress b) in Wb.
  unfold is_word, store_size in *.
  assert (Hidx : Z.to_nat (startAddress a) <> Z.to_nat (startAddress b)) by lia.
  eexists _, _. unfold bind.
  rewrite (dispatch_write_single a w), (dispatch_write_single b w) by assumption.
  rewrite (dispatch_write_single b), (dispatch_write_single a);
    try assumption;
    try (cbn [reg sent]; unfold store_size; rewrite length_insert; lia).
  cbn [reg sent].
  split; [reflexivity | split; [reflexivity | split; [| split]]].
  - cbn [reg sent]. apply list_insert_insert_ne. congruence.
  - cbn [reg sent]. rewrite list_lookup_insert_ne by congruence.
    apply list_lookup_insert_eq. lia.
  - cbn [reg sent]. apply list_lookup_insert_eq. rewrite length_insert. lia.
Qed.

Lemma single_writes_commute_witness :
  is_frame write_single_frame /\ is_frame write_register_5_frame /\
  startAddress write_single_frame <> startAddress write_register_5_frame /\
  exists wab wba,
    (processRequest write_single_frame ;;; processRequest write_register_5_frame)
      (world_of zero_store) = Ok tt wab /\
    (processRequest write_register_5_frame ;;; processRequest write_single_frame)
      (world_of zero_store) = Ok tt wba /\
    reg wab = reg wba /\
    reg wab !! 2%nat = Some 0x1234 /\
    reg wab !! 5%nat = Some 0xFF.
Proof.
  assert (Ha : is_frame write_single_frame) by (unfold write_single_frame; frame_ok).
  assert (Hb : is_frame write_register_5_frame)
    by (unfold write_register_5_frame; frame_ok).
  assert (Hne : startAddress write_single_frame <> startAddress write_register_5_frame)
    by (vm_compute; discriminate).
  split; [exact Ha | split; [exact Hb | split; [exact Hne |]]].
  exact (single_writes_commute write_single_frame write_register_5_frame
           (world_of zero_store) Ha Hb ltac:(simpl; lia) ltac:(simpl; lia)
           eq_refl eq_refl ltac:(vm_compute; reflexivity) ltac:(vm_compute; reflexivity)
           Hne).
Defined.

Lemma flat_map_be_bytes_frame (words : list Z) :
  Forall is_word words -> is_frame (flat_map be_bytes words).
Proof.
  induction words as [| x words IH]; intros H; [apply Forall_nil_2 |].
  apply Forall_cons in H. destruct H as [Hx H]. cbn [flat_map be_bytes app].
  unfold is_word, is_byte in *.
  apply Forall_cons_2; [split; [apply Z.div_pos; lia | apply Z.div_lt_upper_bound; lia] |].
  apply Forall_cons_2; [apply Z.mod_pos_bound; lia | apply IH, H].
Qed.

Lemma flat_map_be_bytes_length (words : list Z) :
  length (flat_map be_bytes words) = (2 * length words)%nat.
Proof.
  induction words as [| x words IH]; [reflexivity |].
  cbn [flat_map be_bytes app length]. rewrite IH. lia.
Qed.

(** X13. The reply to a valid Read Holding Registers request is a frame
    of bytes of [9 + quantity*2] bytes; when [quantity <= 32766] its
    length field counts the bytes that follow it, so that a frame reader
    on the other side takes it off the stream whole. *)
Theorem read_reply_framed (request : list Z) (w : World) :
  is_frame request -> is_store (reg w) ->
  (12 <= length request)%nat ->
  functionCode request = 0x03 ->
  startAddress request + quantity request <= store_size (reg w) ->
  exists reply,
    processRequest request w = Ok tt (sent reply (reg w) w) /\
    is_frame reply /\
    Z.of_nat (length reply) = 9 + quantity request * 2 /\
    (quantity request <= 32766 -> framed reply).
Proof.
  intros Hf Hst Hlen Hfc Hin.
  pose proof (frame_field_word request 8 9 Hf) as Hs.
  pose proof (frame_field_word request 10 11 Hf) as Hq.
  fold (startAddress request) in Hs. fold (quantity request) in Hq.
  unfold is_word in Hs, Hq.
  assert (Hwords : Forall is_word
                     (registers (reg w) (startAddress request) (quantity request))).
  { unfold registers. apply Forall_take, Forall_drop. exact Hst. }
  assert (Hn : Z.of_nat (length (registers (reg w) (startAddress request)
                                   (quantity request))) = quantity request)
    by (apply registers_length; lia).
  destruct (frame_header request Hlen)
    as (b0 & b1 & b2 & b3 & b4 & b5 & b6 & b7 & b8 & b9 & b10 & b11 & rest & E).
  exists (read_response request (reg w)).
  split; [apply dispatch_read_holding; assumption |].
  assert (Hlength : Z.of_nat (length (read_response request (reg w)))
                    = 9 + quantity request * 2).
  { unfold read_response.
    replace (take 4 request) with [b0; b1; b2; b3] by (rewrite E; reflexivity).
    cbn [be_bytes app length]. rewrite flat_map_be_bytes_length. lia. }
  split; [| split; [exact Hlength |]].
  - unfold read_response, is_frame. rewrite !Forall_app. repeat split.
    + apply Forall_take. exact Hf.
    + apply (flat_map_be_bytes_frame [ (3 + quantity request * 2) mod 65536 ]).
      apply Forall_cons_2; [apply Z.mod_pos_bound; lia | apply Forall_nil_2].
    + apply Forall_cons_2; [apply byte_at_byte; exact Hf |].
      apply Forall_cons_2; [unfold is_byte; lia |].
      apply Forall_cons_2; [apply Z.mod_pos_bound; lia | apply Forall_nil_2].
    + apply flat_map_be_bytes_frame. exact Hwords.
  - intros Hsmall. split; [lia |]. rewrite Hlength.
    unfold read_response.
    replace (take 4 request) with [b0; b1; b2; b3] by (rewrite E; reflexivity).
    cbn [be_bytes app byte_at nth].
    rewrite (Z.mod_small (3 + quantity request * 2) 65536) by lia. unfold be16.
    pose proof (Z.div_mod (3 + quantity request * 2) 256). lia.
Qed.

Lemma read_reply_framed_witness :
  is_frame read_one_frame /\ is_store (reg (world_of zero_store)) /\
  exists reply,
    processRequest read_one_frame (world_of zero_store)
    = Ok tt (sent reply zero_store (world_of zero_store)) /\
    is_frame reply /\
    Z.of_nat (length reply) = 11 /\
    (1 <= 32766 -> framed reply).
Proof.
  assert (Hf : is_frame read_one_frame) by (unfold read_one_frame; frame_ok).
  assert (Hst : is_store (reg (world_of zero_store)))
    by (cbn [reg world_of]; unfold zero_store; cbn [repeat]; frame_ok).
  split; [exact Hf | split; [exact Hst |]].
  exact (read_reply_framed read_one_frame (world_of zero_store) Hf Hst
           ltac:(simpl; lia) eq_refl ltac:(vm_compute; discriminate)).
Defined.

End Composition.

(** ** Stopping a session, and requests for no register *)

Section Cancellation.

Lemma clientThread_loop_stopped (done : list (list Z)) :
  forall (rest : list bool) (mbap request : list Z) (dispatched : list (list Z))
         (w : World) (tail : list Z),
    length mbap = 6%nat ->
    Forall is_frame done -> Forall framed done ->
    live (incoming (conn w)) -> pending w = concat done ++ tail ->
    exists chunks',
      concat chunks' = tail /\ live chunks' /\
      clientThread_loop (repeat false (length done) ++ true :: rest)
        mbap request dispatched w
      = bind (dispatch_all done) (fun _ => ret (Closed (dispatched ++ done)))
          (with_incoming chunks' w).
Proof.
  induction done as [| f fs IH];
    intros rest mbap request dispatched w tail Hmbap Hbytes Hframed Hlive Hpend.
  - exists (incoming (conn w)). cbn [length repeat app dispatch_all concat] in *.
    split; [exact Hpend | split; [exact Hlive |]].
    cbn [clientThread_loop]. unfold bind, ret.
    rewrite app_nil_r, with_incoming_same. reflexivity.
  - apply Forall_cons in Hbytes. destruct Hbytes as [Hf Hbytes].
    apply Forall_cons in Hframed. destruct Hframed as [[Hlen6 Hfield] Hframed].
    cbn [length repeat app concat dispatch_all] in *.
    rewrite <- app_assoc in Hpend.
    destruct (readExact_enough mbap w Hlive) as (chunks1 & Hrun1 & Hcat1 & Hlive1).
    { rewrite Hpend, length_app, Hmbap. lia. }
    rewrite Hmbap, Hpend, take_app_le in Hrun1 by lia.
    rewrite Hmbap, Hpend, drop_app_le in Hcat1 by lia.
    destruct (readExact_enough (resize request (length f - 6))
                (with_incoming chunks1 w) Hlive1) as (chunks2 & Hrun2 & Hcat2 & Hlive2).
    { rewrite resize_length. unfold pending. cbn [with_incoming conn incoming].
      rewrite Hcat1, length_app, length_drop. lia. }
    unfold pending in Hrun2, Hcat2.
    cbn [with_incoming conn incoming written reg] in Hrun2, Hcat2.
    rewrite resize_length, Hcat1 in Hrun2, Hcat2.
    rewrite take_app_length' in Hrun2 by (rewrite length_drop; lia).
    rewrite drop_app_length' in Hcat2 by (rewrite length_drop; lia).
    assert (Hstep :
               clientThread_loop (false :: repeat false (length fs) ++ true :: rest)
                 mbap request dispatched w
               = bind (processRequest f)
                   (fun _ => clientThread_loop (repeat false (length fs) ++ true :: rest)
                               (take 6 f) f (dispatched ++ [f]))
                   (with_incoming chunks2 w)).
    { cbn [clientThread_loop]. unfold bind at 1. rewrite Hrun1.
      rewrite (bind_at _ _ (byte_at f 4));
        [| lia | cbn [Z.to_nat Pos.to_nat Pos.iter_op Nat.add];
                 rewrite lookup_take_lt by lia; apply lookup_byte_at; lia].
      rewrite (bind_at _ _ (byte_at f 5));
        [| lia | cbn [Z.to_nat Pos.to_nat Pos.iter_op Nat.add];
                 rewrite lookup_take_lt by lia; apply lookup_byte_at; lia].
      cbv zeta.
      rewrite shl8_or_be16 by (apply byte_at_byte; exact Hf).
      rewrite Hfield.
      replace (Z.to_nat (Z.of_nat (length f) - 6)) with (length f - 6)%nat by lia.
      unfold bind at 1. rewrite Hrun2, take_drop. reflexivity. }
    destruct (processRequest f w) as [[] w3 | fl] eqn:Hr.
    + destruct (IH rest (take 6 f) f (dispatched ++ [f]) (with_incoming chunks2 w3) tail)
        as (chunks' & Hcat' & Hlive' & Hrun'); try assumption.
      { rewrite length_take. lia. }
      exists chunks'. split; [exact Hcat' | split; [exact Hlive' |]].
      rewrite Hstep. unfold bind at 1 2 3.
      rewrite !processRequest_ignores_incoming, Hr. cbn [map_world].
      rewrite Hrun', !with_incoming_twice, <- app_assoc. reflexivity.
    + exists (match tail with [] => [] | _ => [tail] end).
      split; [destruct tail; [reflexivity | apply app_nil_r] |].
      split; [destruct tail; [apply Forall_nil_2 |];
              apply Forall_cons_2; [discriminate | apply Forall_nil_2] |].
      rewrite Hstep. unfold bind at 1 2 3.
      rewrite !processRequest_ignores_incoming, Hr. reflexivity.
Qed.

(** X14. The stop flag is looked at between requests only: a session that
    finds it set after the frames [done] has dispatched these frames in
    the order of their arrival and stops there; the bytes that follow
    them on the stream are left unread on the connection. *)
Theorem session_stops_between_requests (done : list (list Z)) (rest : list bool)
    (w : World) (tail : list Z) :
  Forall is_frame done -> Forall framed done ->
  live (incoming (conn w)) -> pending w = concat done ++ tail ->
  exists chunks',
    concat chunks' = tail /\
    clientThread (repeat false (length done) ++ true :: rest) w
    = bind (dispatch_all done) (fun _ => ret (Closed done)) (with_incoming chunks' w).
Proof.
  intros Hbytes Hframed Hlive Hpend. unfold clientThread.
  destruct (clientThread_loop_stopped done rest (repeat 0 6%nat) [] [] w tail)
    as (chunks' & Hcat & _ & Hrun); try assumption; [reflexivity |].
  exists chunks'. split; [exact Hcat | exact Hrun].
Qed.

Lemma session_stops_between_requests_witness :
  Forall is_frame [write_single_frame] /\
  Forall framed [write_single_frame] /\
  live (incoming (conn two_request_session)) /\
  pending two_request_session = concat [write_single_frame] ++ read_one_frame /\
  exists chunks',
    concat chunks' = read_one_frame /\
    clientThread [false; true; false] two_request_session
    = Ok (Closed [write_single_frame])
         (mkWorld (mkConnection chunks' [write_single_frame])
                  (<[2%nat := 0x1234]> zero_store)).
Proof.
  assert (Hb : Forall is_frame [write_single_frame]).
  { apply Forall_cons_2; [unfold write_single_frame; frame_ok | apply Forall_nil_2]. }
  assert (Hf : Forall framed [write_single_frame]).
  { apply Forall_cons_2; [split; [simpl; lia | reflexivity] | apply Forall_nil_2]. }
  assert (Hl : live (incoming (conn two_request_session))).
  { repeat (apply Forall_cons_2; [discriminate |]). apply Forall_nil_2. }
  assert (Hp : pending two_request_session = concat [write_single_frame] ++ read_one_frame)
    by reflexivity.
  split; [exact Hb | split; [exact Hf | split; [exact Hl | split; [exact Hp |]]]].
  exact (session_stops_between_requests [write_single_frame] [false]
           two_request_session read_one_frame Hb Hf Hl Hp).
Defined.

(** X15. A Read Holding Registers request for no register is not
    rejected: whenever [startAddress] is at most the size of the store
    (the index one past the last register included) the reply is the
    transaction and protocol identifiers, length 3, the unit identifier,
    0x03 and a byte count of 0, with no data; the store is unchanged. *)
Theorem read_no_register (request : list Z) (w : World) :
  is_frame request ->
  (12 <= length request)%nat ->
  functionCode request = 0x03 ->
  quantity request = 0 ->
  startAddress request <= store_size (reg w) ->
  processRequest request w
  = Ok tt (sent (take 4 request ++ [0; 3; unitId request; 0x03; 0]) (reg w) w).
Proof.
  intros Hf Hlen Hfc Hq Hin.
  rewrite dispatch_read_holding; try assumption.
  - unfold read_response, registers. rewrite Hq. reflexivity.
  - lia.
  - unfold registers. rewrite Hq. apply Forall_nil_2.
Qed.

Lemma read_no_register_witness :
  is_frame [0; 9; 0; 0; 0; 6; 0x11; 0x03; 0; 10; 0; 0] /\
  startAddress [0; 9; 0; 0; 0; 6; 0x11; 0x03; 0; 10; 0; 0]
    <= store_size (reg (world_of zero_store)) /\
  processRequest [0; 9; 0; 0; 0; 6; 0x11; 0x03; 0; 10; 0; 0] (world_of zero_store)
  = Ok tt (sent [0; 9; 0; 0; 0; 3; 0x11; 0x03; 0] zero_store (world_of zero_store)).
Proof.
  assert (Hf : is_frame [0; 9; 0; 0; 0; 6; 0x11; 0x03; 0; 10; 0; 0]) by frame_ok.
  assert (Hin : startAddress [0; 9; 0; 0; 0; 6; 0x11; 0x03; 0; 10; 0; 0]
                <= store_size (reg (world_of zero_store))) by (vm_compute; discriminate).
  split; [exact Hf | split; [exact Hin |]].
  exact (read_no_register [0; 9; 0; 0; 0; 6; 0x11; 0x03; 0; 10; 0; 0]
           (world_of zero_store) Hf ltac:(simpl; lia) eq_refl eq_refl Hin).
Defined.

End Cancellation.
